(** * TemPy widgets: TempyTable and TempyList

    A shallow embedding of [tempy/widgets.py].  The table widget mutates a
    tag tree in place, so its methods are written in a state-and-exception
    monad over the table.  The list widget builds a fresh tree: its methods
    run in the same monad over the children of the list under
    construction, and the class factory is a function from the arguments
    to the list or the exception raised. *)

From stdpp Require Import gmap strings list.

Set Default Proof Using "Type".
Set Warnings "-register-all".
Open Scope string_scope.
Open Scope list_scope.

(** ** Python exceptions and the state/exception monad *)

Inductive Exception :=
  | WidgetDataError
  | WidgetError
  | ValueError
  | AttributeError
  | TypeError
  | KeyError
  | IndexError
  | RecursionError
  | UserError (msg : string).

Inductive Outcome (A : Type) :=
  | Return (a : A)
  | Raise (e : Exception).
Arguments Return {A} a.
Arguments Raise {A} e.

Definition M (S A : Type) : Type := S -> Outcome A * S.

Definition ret {S A} (a : A) : M S A := fun s => (Return a, s).

Definition raise {S A} (e : Exception) : M S A := fun s => (Raise e, s).

Definition bind {S A B} (m : M S A) (k : A -> M S B) : M S B :=
  fun s => match m s with
           | (Return a, s') => k a s'
           | (Raise e, s') => (Raise e, s')
           end.

Definition get {S} : M S S := fun s => (Return s, s).

Definition modify {S} (f : S -> S) : M S unit := fun s => (Return tt, f s).

(** [try: m  except Exception as ex: h ex] *)
Definition try_except {S A} (m : M S A) (h : Exception -> M S A) : M S A :=
  fun s => match m s with
           | (Return a, s') => (Return a, s')
           | (Raise e, s') => h e s'
           end.

Declare Scope py_scope.
Delimit Scope py_scope with py.
Notation "x <- c ;; k" := (bind c (fun x => k))
  (at level 100, c at next level, right associativity) : py_scope.
Notation "c ;; k" := (bind c (fun _ => k))
  (at level 100, right associativity) : py_scope.
Open Scope py_scope.

(** [for x in l: body x] over a sequence that the loop does not resize. *)
Fixpoint for_each {S A} (l : list A) (body : A -> M S unit) : M S unit :=
  match l with
  | [] => ret tt
  | x :: l' => body x ;; for_each l' body
  end.

(** A generator expression [(x for y in ys if cond y)]: one suspended
    computation per element of the outer iterable; the condition runs when
    the consumer asks for the next item, so it sees the current state and
    may raise inside the consumer's [try]. *)
Definition Generator (S A : Type) : Type := list (M S (option A)).

Fixpoint for_gen {S A} (gen : Generator S A) (body : A -> M S unit) : M S unit :=
  match gen with
  | [] => ret tt
  | g :: gen' =>
      x <- g ;;
      match x with Some a => body a | None => ret tt end ;;
      for_gen gen' body
  end.

(** A live Python list iterator as [zip_longest] drives it: [Some i] is the
    next index to read, [None] an iterator that reported exhaustion and is
    never asked again. *)
Definition list_iter : Type := option nat.

Definition iter_next (len : nat) (it : list_iter) : option nat * list_iter :=
  match it with
  | Some i => if decide (i < len) then (Some i, Some (S i)) else (None, None)
  | None => (None, None)
  end.

(** [max(map(len, xs))]; [max] of an empty sequence raises [ValueError]. *)
Definition max_map_len {S A} (xs : list (list A)) : M S nat :=
  match xs with
  | [] => raise ValueError
  | _ => ret (max_list (length <$> xs))
  end.

(** Modelled from the spec: [tempy.tools.AdjustableList.ljust] is not in the
    sources; the spec says every data row is right-padded with empty values
    to the maximum width. *)
Definition ljust {A} (l : list A) (n : nat) (fillvalue : A) : list A :=
  l ++ replicate (n - length l) fillvalue.

(** ** The tag tree under a table

    Modelled from the spec: the node primitives of [tempy.tags] are not in
    the sources.  Following the Node contract, a node has a tag, a mapping
    of string attributes and an ordered sequence of children; [append]
    adds a child at the end, [remove] detaches a node from its parent,
    [empty] drops all children and keeps the node and its attributes,
    [setAttr] binds one attribute key.  A node is an object, so it is
    always true in a condition; only the [None] that [zip_longest] fills in
    for an exhausted side is false. *)

Section Table.
Context {V : Type}.

Inductive CellTag := Td | Th.

Record Cell := mkCell {
  cell_tag : CellTag;
  cell_attrs : gmap string string;
  cell_childs : list V
}.

Record Tr := mkTr {
  row_attrs : gmap string string;
  row_childs : list Cell
}.

Inductive Part :=
  | Tbody (rows : list Tr)
  | Thead (rows : list Tr)
  | Tfoot (rows : list Tr)
  | Caption (content : list V).

(** The table root.  Its ordered children are
    [before ++ Tbody body :: after]: [body] is the [Tbody] that the
    attribute [self.body] is bound to.  [header] and [footer] are the
    attributes of those names: absent, or the position among the root's
    children of the part they are bound to. *)
Record TempyTable := mkTable {
  before : list Part;
  body : list Tr;
  after : list Part;
  header : option nat;
  footer : option nat
}.

Definition table_childs (t : TempyTable) : list Part :=
  before t ++ Tbody (body t) :: after t.

Definition new_Td : Cell := mkCell Td ∅ [].
Definition new_Th : Cell := mkCell Th ∅ [].
Definition new_Tr : Tr := mkTr ∅ [].

(** [cell(content)]: a [None] argument adds nothing. *)
Definition cell_call (c : Cell) (content : option V) : Cell :=
  match content with
  | Some v => mkCell (cell_tag c) (cell_attrs c) (cell_childs c ++ [v])
  | None => c
  end.

Definition cell_empty (c : Cell) : Cell :=
  mkCell (cell_tag c) (cell_attrs c) [].

Definition cell_attr (key value : string) (c : Cell) : Cell :=
  mkCell (cell_tag c) (<[key := value]> (cell_attrs c)) (cell_childs c).

Definition row_with_childs (f : list Cell -> list Cell) (r : Tr) : Tr :=
  mkTr (row_attrs r) (f (row_childs r)).

Definition set_body (f : list Tr -> list Tr) (t : TempyTable) : TempyTable :=
  mkTable (before t) (f (body t)) (after t) (header t) (footer t).

(** [len(node)] and the truth value of a node or of [None]. *)
Definition row_len (r : Tr) : nat := length (row_childs r).
Definition node_bool {A} (n : option A) : bool :=
  match n with Some _ => true | None => false end.

Abbreviation T := (M TempyTable).

Definition get_body : T (list Tr) := fun t => (Return (body t), t).

(** References into the tree: a row is named by its position in the body,
    a cell by the position of its row and its own position in the row. *)
Definition row_at (r : nat) : T Tr :=
  b <- get_body ;;
  match b !! r with Some row => ret row | None => raise AttributeError end.

Definition alter_row (r : nat) (f : Tr -> Tr) : T unit :=
  modify (set_body (alter f r)).

Definition alter_cell (r j : nat) (f : Cell -> Cell) : T unit :=
  alter_row r (row_with_childs (alter f j)).

(** [Tr().append_to(self.body)], returning the reference to the new row. *)
Definition Tr_append_to_body : T nat :=
  b <- get_body ;;
  modify (set_body (fun rows => rows ++ [new_Tr])) ;;
  ret (length b).

(** [Td().append_to(t_row)]. *)
Definition Td_append_to (r : nat) : T nat :=
  row <- row_at r ;;
  alter_row r (row_with_childs (fun cells => cells ++ [new_Td])) ;;
  ret (row_len row).

(** [t_row.remove()]. *)
Definition row_remove (r : nat) : T unit :=
  modify (set_body (delete r)).

(** [self(body=Tbody())]: a new body is appended to the root and the
    attribute is rebound to it. *)
Definition call_body_Tbody : T unit :=
  modify (fun t => mkTable (table_childs t) [] [] (header t) (footer t)).

(** ** TempyTable *)

Definition clear : T unit := modify (set_body (fun _ => [])).

(** [row] is a sequence, or already a length ([len] of an [int] raises
    [TypeError], which the method catches). *)
Definition _check_row_size (row : nat + list (option V)) : T unit :=
  let row_length := match row with inl n => n | inr l => length l end in
  b <- get_body ;;
  if negb (bool_decide (b = [])) && bool_decide (max_list (row_len <$> b) < row_length)
  then raise WidgetDataError
  else ret tt.

(** The body of the inner loop of [populate]. *)
Definition populate_cell (resize_x : bool) (r : nat)
    (t_cell : option nat) (d_cell : option V) : T unit :=
  t_cell <- (if negb (node_bool t_cell) && resize_x
             then j <- Td_append_to r ;; ret (Some j)
             else ret t_cell) ;;
  match t_cell with
  | None => raise AttributeError
  | Some j =>
      alter_cell r j cell_empty ;;
      match d_cell with
      | Some v => alter_cell r j (fun c => cell_call c (Some v))
      | None => ret tt
      end
  end.

(** [next] on the live iterator over the cells of the row [r]; an
    iterator that is used up is not asked again. *)
Definition next_cell (r : nat) (it : list_iter) : T (option nat * list_iter) :=
  match it with
  | Some _ => row <- row_at r ;; ret (iter_next (row_len row) it)
  | None => ret (None, None)
  end.

(** [for t_cell, d_cell in zip_longest(t_row, d_row)], with [t_row] read
    through a live iterator.  Once the data are used up the cells that are
    left are paired with [None]; the loop body never resizes the row then. *)
Fixpoint populate_cells (resize_x : bool) (r : nat) (it : list_iter)
    (d_row : list (option V)) : T unit :=
  match d_row with
  | d_cell :: d_row' =>
      next <- next_cell r it ;;
      populate_cell resize_x r next.1 d_cell ;;
      populate_cells resize_x r next.2 d_row'
  | [] =>
      match it with
      | Some i =>
          row <- row_at r ;;
          for_each (seq i (row_len row - i))
                   (fun j => populate_cell resize_x r (Some j) None)
      | None => ret tt
      end
  end.

(** The truth value of [d_row]: [None] (data used up) and the empty
    sequence are false. *)
Definition seq_bool {A} (l : option (list A)) : bool :=
  match l with Some (_ :: _) => true | _ => false end.

(** The body of the outer loop of [populate]; [d_row] is [None] when the
    data are used up, [t_row] is [None] when the body is. *)
Definition populate_row (resize_x normalize : bool) (max_data_x : nat)
    (t_row : option nat) (d_row : option (list (option V))) : T unit :=
  if negb (seq_bool d_row) then
    match t_row with
    | Some r => row_remove r
    | None => raise AttributeError
    end
  else
    r <- match t_row with
         | Some r => ret r
         | None => Tr_append_to_body
         end ;;
    let d_row := default [] d_row in
    let d_row := if normalize then ljust d_row max_data_x None else d_row in
    populate_cells resize_x r (Some 0) d_row.

(** The rows that a live iterator over the body still yields once the data
    are used up: each is removed, which shifts the rows behind it. *)
Fixpoint drain_rows (resize_x normalize : bool) (max_data_x : nat)
    (fuel i : nat) : T unit :=
  match fuel with
  | 0 => ret tt
  | S fuel' =>
      b <- get_body ;;
      if decide (i < length b)
      then populate_row resize_x normalize max_data_x (Some i) None ;;
           drain_rows resize_x normalize max_data_x fuel' (S i)
      else ret tt
  end.

(** [next] on the live iterator over the rows of the body. *)
Definition next_row (it : list_iter) : T (option nat * list_iter) :=
  match it with
  | Some _ => b <- get_body ;; ret (iter_next (length b) it)
  | None => ret (None, None)
  end.

(** [for t_row, d_row in zip_longest(self.body, data)]. *)
Fixpoint populate_rows (resize_x normalize : bool) (max_data_x : nat)
    (it : list_iter) (data : list (list (option V))) : T unit :=
  match data with
  | d_row :: data' =>
      next <- next_row it ;;
      populate_row resize_x normalize max_data_x next.1 (Some d_row) ;;
      populate_rows resize_x normalize max_data_x next.2 data'
  | [] =>
      match it with
      | Some i =>
          b <- get_body ;;
          drain_rows resize_x normalize max_data_x (length b) i
      | None => ret tt
      end
  end.

Definition populate (data : option (list (list (option V))))
    (resize_x normalize : bool) : T unit :=
  match data with
  | None => raise WidgetDataError
  | Some data =>
      b <- get_body ;;
      (if negb (node_bool (Some b)) then call_body_Tbody else ret tt) ;;
      clear ;;
      max_data_x <- max_map_len data ;;
      (if negb resize_x then _check_row_size (inl max_data_x) else ret tt) ;;
      populate_rows resize_x normalize max_data_x (Some 0) data
  end.

(** [add_row]: each value is wrapped in a new cell of a new row. *)
Definition add_row (row_data : list (option V)) (resize_x : bool) : T unit :=
  (if negb resize_x then _check_row_size (inr row_data) else ret tt) ;;
  modify (set_body (fun rows =>
    rows ++ [mkTr ∅ ((fun cell => cell_call new_Td cell) <$> row_data)])).

(** *** Header and footer *)

Definition hasattr (part : string) (t : TempyTable) : bool :=
  if decide (part = "header") then node_bool (header t)
  else if decide (part = "footer") then node_bool (footer t)
  else false.

Definition setattr (part : string) (i : nat) (t : TempyTable) : TempyTable :=
  if decide (part = "header")
  then mkTable (before t) (body t) (after t) (Some i) (footer t)
  else if decide (part = "footer")
  then mkTable (before t) (body t) (after t) (header t) (Some i)
  else t.

(** [node.append_to(self)] on the root. *)
Definition append_child (p : Part) (t : TempyTable) : TempyTable :=
  mkTable (before t) (body t) (after t ++ [p]) (header t) (footer t).

(** [part(row)]: one more row under a head, foot or body. *)
Definition part_call (row : Tr) (p : Part) : Part :=
  match p with
  | Tbody rows => Tbody (rows ++ [row])
  | Thead rows => Thead (rows ++ [row])
  | Tfoot rows => Tfoot (rows ++ [row])
  | Caption content => Caption content
  end.

(** An update of the root's child at position [i]. *)
Definition alter_child (i : nat) (f : Part -> Part) (t : TempyTable) : TempyTable :=
  if decide (i < length (before t))
  then mkTable (alter f i (before t)) (body t) (after t) (header t) (footer t)
  else if decide (i = length (before t))
  then match f (Tbody (body t)) with
       | Tbody rows => mkTable (before t) rows (after t) (header t) (footer t)
       | _ => t
       end
  else mkTable (before t) (body t)
               (alter f (i - S (length (before t))) (after t)) (header t) (footer t).

Definition _make_table_part (part : string) (data : list (option V)) : T unit :=
  tags <- (if decide (part = "header") then ret (Thead, Th)
           else if decide (part = "footer") then ret (Tfoot, Td)
           else raise TypeError) ;;
  let '(part_tag, inner_tag) := tags in
  t <- get ;;
  let part_instance := length (table_childs t) in
  modify (append_child (part_tag [])) ;;
  (if negb (hasattr part t) then modify (setattr part part_instance) else ret tt) ;;
  modify (alter_child part_instance
            (part_call (mkTr ∅ ((fun col => cell_call (mkCell inner_tag ∅ []) col) <$> data)))).

Definition make_header (head : list (option V)) : T unit :=
  _make_table_part "header" head.

Definition make_footer (footer : list (option V)) : T unit :=
  _make_table_part "footer" footer.

(** *** Bounds checks *)

Definition is_row_within_bounds (row_index : Z) : T bool :=
  b <- get_body ;;
  if bool_decide (0 ≤ row_index)%Z && bool_decide (row_index < Z.of_nat (length b))%Z
  then ret true
  else raise WidgetDataError.

Definition is_col_within_bounds (col_index : Z) (row : Tr) : T bool :=
  if bool_decide (0 ≤ col_index)%Z && bool_decide (col_index < Z.of_nat (length (row_childs row)))%Z
  then ret true
  else raise WidgetDataError.

(** [row.childs[j]] for an index that is not negative. *)
Definition cell_at (r j : nat) : T Cell :=
  row <- row_at r ;;
  match row_childs row !! j with Some c => ret c | None => raise IndexError end.

Definition cell_nonempty (c : Cell) : bool :=
  bool_decide (0 < length (cell_childs c)).

(** *** Classes *)

Definition col_class (css_class : string) (col_index : option Z) : T unit :=
  match col_index with
  | None =>
      (* the generator of (row, cell) pairs is consumed at once: two
         nested loops *)
      b <- get_body ;;
      for_each (seq 0 (length b)) (fun r =>
        row <- row_at r ;;
        for_each (seq 0 (row_len row)) (fun j =>
          alter_cell r j (cell_attr "klass" css_class)))
  | Some col_index =>
      b <- get_body ;;
      for_each (seq 0 (length b)) (fun r =>
        row <- row_at r ;;
        ok <- is_col_within_bounds col_index row ;;
        c <- cell_at r (Z.to_nat col_index) ;;
        if ok && cell_nonempty c
        then alter_cell r (Z.to_nat col_index) (cell_attr "klass" css_class)
        else ret tt)
  end.

(** *** Mapping a function over cells *)

(** Modelled from the spec: [apply_function] of a node is not in the
    sources; the transform is applied to the content of the cell, one
    value after the other, and an error of the transform leaves the values
    already replaced in place. *)
Fixpoint apply_function (fn : V -> Exception + V) (childs : list V)
    : Outcome unit * list V :=
  match childs with
  | [] => (Return tt, [])
  | v :: childs' =>
      match fn v with
      | inl ex => (Raise ex, v :: childs')
      | inr v' =>
          let '(o, childs'') := apply_function fn childs' in
          (o, v' :: childs'')
      end
  end.

Definition cell_apply_function (fn : V -> Exception + V) (ref : nat * nat) : T unit :=
  c <- cell_at ref.1 ref.2 ;;
  let '(o, childs) := apply_function fn (cell_childs c) in
  alter_cell ref.1 ref.2 (fun c => mkCell (cell_tag c) (cell_attrs c) childs) ;;
  match o with
  | Return _ => ret tt
  | Raise ex => raise ex
  end.

Definition apply_function_to_cells (gen : Generator TempyTable (nat * nat))
    (format_function : V -> Exception + V) (ignore_errors : bool) : T unit :=
  try_except
    (for_gen gen (cell_apply_function format_function))
    (fun ex => if ignore_errors then ret tt else raise ex).

(** [(cell for cell in row.childs if len(cell.childs) > 0)] for the row at
    position [r], which has [n] cells when the generator is made. *)
Definition nonempty_cells (r n : nat) : Generator TempyTable (nat * nat) :=
  (fun j => c <- cell_at r j ;;
            ret (if cell_nonempty c then Some (r, j) else None)) <$> seq 0 n.

Definition map_table (format_function : V -> Exception + V)
    (ignore_errors : bool) : T unit :=
  b <- get_body ;;
  for_each (seq 0 (length b)) (fun r =>
    row <- row_at r ;;
    apply_function_to_cells (nonempty_cells r (row_len row))
                            format_function ignore_errors).

Definition map_row (row_function : V -> Exception + V)
    (row_index : option Z) (ignore_errors : bool) : T unit :=
  match row_index with
  | None => map_table row_function true
  | Some row_index =>
      ok <- is_row_within_bounds row_index ;;
      if ok then
        row <- row_at (Z.to_nat row_index) ;;
        apply_function_to_cells (nonempty_cells (Z.to_nat row_index) (row_len row))
                                row_function ignore_errors
      else ret tt
  end.

Definition map_col (col_function : V -> Exception + V)
    (col_index : option Z) (ignore_errors : bool) : T unit :=
  match col_index with
  | None => map_table col_function true
  | Some col_index =>
      b <- get_body ;;
      let gen : Generator TempyTable (nat * nat) :=
        (fun r => row <- row_at r ;;
                  ok <- is_col_within_bounds col_index row ;;
                  c <- cell_at r (Z.to_nat col_index) ;;
                  ret (if ok && cell_nonempty c
                       then Some (r, Z.to_nat col_index) else None))
          <$> seq 0 (length b) in
      try_except
        (for_gen gen (cell_apply_function col_function))
        (fun ex => if ignore_errors then ret tt else raise ex)
  end.

End Table.

Arguments Cell : clear implicits.
Arguments Tr : clear implicits.
Arguments Part : clear implicits.
Arguments TempyTable : clear implicits.

(** ** TempyList

    The list widget.  Its input is a Python value: [None], a string, a tag
    class, a list or tuple of hashable scalars, or a dict, kept in
    insertion order with keys that are strings or [None].  (A set has no
    order of its own and is left out.) *)

Module TempyList.

Inductive Tag := Ul | Ol | Dl | Li | Dt | Dd.

#[export] Instance Tag_eq_dec : EqDecision Tag.
Proof. solve_decision. Defined.

Definition Key : Type := option string.

Inductive PyVal :=
  | PNone
  | PStr (s : string)
  | PTag (t : Tag)
  | PList (l : list Key)
  | PDict (d : list (Key * PyVal)).

Inductive Node :=
  | Content (v : PyVal)
  | Elem (tag : Tag) (childs : list Node).

(** Modelled from the spec: the module [tempy.tags] is not in the sources;
    the names it is asked for here are those of the list tags, any other
    token is an unrecognized kind. *)
Definition tags_getattr (name : string) : option Tag :=
  if decide (name = "Ul") then Some Ul
  else if decide (name = "Ol") then Some Ol
  else if decide (name = "Dl") then Some Dl
  else if decide (name = "Li") then Some Li
  else if decide (name = "Dt") then Some Dt
  else if decide (name = "Dd") then Some Dd
  else None.

(** The truth value of a Python value. *)
Definition py_bool (v : PyVal) : bool :=
  match v with
  | PNone => false
  | PStr s => negb (bool_decide (s = EmptyString))
  | PTag _ => true
  | PList l => negb (bool_decide (l = []))
  | PDict d => negb (bool_decide (d = []))
  end.

(** *** Dicts in insertion order *)

Fixpoint dict_get (d : list (Key * PyVal)) (k : Key) : option PyVal :=
  match d with
  | [] => None
  | (k', v) :: d' => if decide (k = k') then Some v else dict_get d' k
  end.

(** [d[k] = v]: a key already present keeps its place. *)
Fixpoint dict_set (d : list (Key * PyVal)) (k : Key) (v : PyVal) : list (Key * PyVal) :=
  match d with
  | [] => [(k, v)]
  | (k', v') :: d' =>
      if decide (k = k') then (k, v) :: d' else (k', v') :: dict_set d' k v
  end.

Fixpoint dict_del (d : list (Key * PyVal)) (k : Key) : list (Key * PyVal) :=
  match d with
  | [] => []
  | (k', v) :: d' => if decide (k = k') then d' else (k', v) :: dict_del d' k
  end.

(** [dict(pairs)] *)
Definition dict (pairs : list (Key * PyVal)) : list (Key * PyVal) :=
  foldl (fun d kv => dict_set d kv.1 kv.2) [] pairs.

(** [itertools.zip_longest(xs, ys)]: the shorter side is filled up; the
    fill value [None] is a key on the left and a value on the right. *)
Fixpoint zip_longest (xs : list Key) (ys : list PyVal) : list (Key * PyVal) :=
  match xs, ys with
  | [], [] => []
  | x :: xs', [] => (x, PNone) :: zip_longest xs' []
  | [], y :: ys' => (None, y) :: ((fun y' => (None, y')) <$> ys')
  | x :: xs', y :: ys' => (x, y) :: zip_longest xs' ys'
  end.

(** *** Nodes *)

(** [tag()(k)]: a new element around a key; [None] adds no content. *)
Definition elem_of_key (tag : Tag) (k : Key) : Node :=
  Elem tag (match k with Some s => [Content (PStr s)] | None => [] end).

(** [node(child)] *)
Definition node_call (child : Node) (n : Node) : Node :=
  match n with
  | Elem tag childs => Elem tag (childs ++ [child])
  | Content v => Content v
  end.

(** The state of a list under construction is the sequence of children of
    [self]. *)
Abbreviation L := (M (list Node)).

(** [self(child)], returning the reference to the child. *)
Definition self_call (child : Node) : L nat :=
  childs <- get ;;
  modify (fun childs => childs ++ [child]) ;;
  ret (length childs).

Definition lift {A} (o : Outcome A) : L A :=
  fun s => (o, s).

(** *** TempyListMeta *)

Section Meta.
(** The class factory [TempyList], which the methods call for sublists. *)
Variable TempyList : PyVal -> PyVal -> Outcome Node.

Definition __process_li_struct (_typ : Tag) (struct : list (Key * PyVal)) : L unit :=
  for_each struct (fun '(k, submenu) =>
    item <- self_call (elem_of_key Li k) ;;
    if py_bool submenu then
      sub <- lift (TempyList (PTag _typ) submenu) ;;
      modify (alter (node_call sub) item)
    else ret tt).

Definition __process_dl_struct (struct : list (Key * PyVal)) : L unit :=
  for_each struct (fun '(k, submenu) =>
    self_call (elem_of_key Dt k) ;;
    if py_bool submenu then
      match submenu with
      | PList l => for_each l (fun elem => self_call (elem_of_key Dd elem) ;; ret tt)
      | PDict d => for_each d.*1 (fun elem => self_call (elem_of_key Dd elem) ;; ret tt)
      | _ => self_call (Elem Dd [Content submenu]) ;; ret tt
      end
    else ret tt).

Definition populate (_typ : Tag) (struct : PyVal) : L unit :=
  match struct with
  | PNone => ret tt
  | _ =>
      let struct := match struct with
                    | PList l => PDict (dict (zip_longest l [PNone]))
                    | _ => struct
                    end in
      match struct with
      | PDict d =>
          if decide (_typ = Dl) then __process_dl_struct d
          else __process_li_struct _typ d
      | _ => raise WidgetDataError
      end
  end.

(** [cls_typ(struct=struct)]: a new element of tag [_typ], populated. *)
Definition __init__ (_typ : Tag) (struct : PyVal) : Outcome Node :=
  match populate _typ struct [] with
  | (Return _, childs) => Return (Elem _typ childs)
  | (Raise ex, _) => Raise ex
  end.

End Meta.

(** *** The class factory *)

(** [typ = struct.pop('_typ')], with the [TypeError], [KeyError] or
    [AttributeError] of a struct that has no such key ignored.  The source
    takes the entry out of the mapping object itself; a struct is a value
    here, and the mapping without the entry is what is handed on.  The two
    agree on every run in which no mapping object that has the key is
    reached twice; a mapping object that is the value of two entries is
    found with the key the first time only. *)
Definition pop_typ (typ struct : PyVal) : PyVal * PyVal :=
  match struct with
  | PDict d =>
      match dict_get d (Some "_typ") with
      | Some v => (v, PDict (dict_del d (Some "_typ")))
      | None => (typ, struct)
      end
  | _ => (typ, struct)
  end.

(** The tag class that a value of [typ] stands for: a string is looked up
    in [tempy.tags], a false value gives [Ul], and what is left has to be
    a tag class. *)
Definition class_of (typ : PyVal) : Outcome Tag :=
  match (match typ with
         | PStr name =>
             match tags_getattr name with
             | Some t => Return (PTag t)
             | None => Raise WidgetError
             end
         | _ => Return typ
         end) with
  | Raise ex => Raise ex
  | Return typ =>
      let typ := if py_bool typ then typ else PTag Ul in
      match typ with
      | PTag t => Return t
      | _ => Raise AttributeError
      end
  end.

(** The tag class that [__new__] settles on, and the struct it hands on. *)
Definition resolve_typ (typ struct : PyVal) : Outcome (Tag * PyVal) :=
  let '(typ, struct) := pop_typ typ struct in
  match class_of typ with
  | Raise ex => Raise ex
  | Return t => Return (t, struct)
  end.

(** [TempyList.__new__]; every call of the factory from inside a list
    uses one level of the recursion depth [fuel]. *)
Fixpoint __new__ (fuel : nat) (typ struct : PyVal) : Outcome Node :=
  match fuel with
  | 0 => Raise RecursionError
  | S fuel' =>
      match resolve_typ typ struct with
      | Raise ex => Raise ex
      | Return (t, struct) => __init__ (__new__ fuel') t struct
      end
  end.

(** The nesting depth of a struct, which bounds the depth of the calls. *)
Fixpoint depth (v : PyVal) : nat :=
  match v with
  | PDict d => S (max_list ((fun kv => depth kv.2) <$> d))
  | _ => 1
  end.

Definition TempyList (typ struct : PyVal) : Outcome Node :=
  __new__ (depth struct) typ struct.

(** The kind of a list that was built: the tag of its root. *)
Definition kind_of_list (o : Outcome Node) : option Tag :=
  match o with
  | Return (Elem tag _) => Some tag
  | _ => None
  end.

(** An item that holds its text and nothing else. *)
Definition li_item (s : string) : Node := Elem Li [Content (PStr s)].

End TempyList.

(** ** Definitions for the statements

    Pure descriptions of what the loops leave behind, the claims as the
    specification words them, and sample tables. *)

Section TableSpec.
Context {V : Type}.
Implicit Types (t : TempyTable V) (d_row : list (option V)).

Definition with_body (t : TempyTable V) (rows : list (Tr V)) : TempyTable V :=
  set_body (fun _ => rows) t.

Definition cell_of (d_cell : option V) : Cell V := cell_call new_Td d_cell.

Definition row_of (d_row : list (option V)) : Tr V := mkTr ∅ (cell_of <$> d_row).

(** The rows that [populate] builds under [resize_x] from data it finds
    the body empty for: one row of new cells per data row, up to the first
    empty data row, which raises. *)
Fixpoint built_rows (normalize : bool) (max_data_x : nat)
    (data : list (list (option V))) : Outcome unit * list (Tr V) :=
  match data with
  | [] => (Return tt, [])
  | d_row :: data' =>
      if seq_bool (Some d_row) then
        let '(o, rows) := built_rows normalize max_data_x data' in
        (o, row_of (if normalize then ljust d_row max_data_x None else d_row) :: rows)
      else (Raise AttributeError, [])
  end.

(** A loop over a sequence whose body may raise: the elements are
    processed in order, and an error leaves the remaining ones as they
    are. *)
Fixpoint traverse {A} (f : A -> Outcome unit * A) (l : list A)
    : Outcome unit * list A :=
  match l with
  | [] => (Return tt, [])
  | x :: l' =>
      match f x with
      | (Return _, x') => let '(o, l'') := traverse f l' in (o, x' :: l'')
      | (Raise ex, x') => (Raise ex, x' :: l')
      end
  end.

(** The handler [except Exception: if ignore_errors: pass else: raise]. *)
Definition swallow (ignore_errors : bool) (o : Outcome unit) : Outcome unit :=
  match o with
  | Return _ => Return tt
  | Raise ex => if ignore_errors then Return tt else Raise ex
  end.

Definition with_childs (c : Cell V) (childs : list V) : Cell V :=
  mkCell (cell_tag c) (cell_attrs c) childs.

(** A cell after [apply_function], and whether the transform raised. *)
Definition cell_run (fn : V -> Exception + V) (c : Cell V) : Outcome unit * Cell V :=
  let '(o, childs) := apply_function fn (cell_childs c) in (o, with_childs c childs).

Definition col_in_bounds (col_index : Z) (row : Tr V) : bool :=
  bool_decide (0 ≤ col_index)%Z && bool_decide (col_index < Z.of_nat (row_len row))%Z.

(** The class put on a cell that has content. *)
Definition class_if_content (css_class : string) (c : Cell V) : Cell V :=
  if cell_nonempty c then cell_attr "klass" css_class c else c.

(** The largest number of cells in a row of the body. *)
Definition column_count (t : TempyTable V) : nat := max_list (row_len <$> body t).

(** One row of [col_class] with an index. *)
Definition col_class_row (css_class : string) (col_index : Z) (row : Tr V)
    : Outcome unit * Tr V :=
  if col_in_bounds col_index row
  then (Return tt,
        row_with_childs (alter (class_if_content css_class) (Z.to_nat col_index)) row)
  else (Raise WidgetDataError, row).

(** One row of [map_table]: its cells in order, up to the first error. *)
Definition map_table_row (fn : V -> Exception + V) (ignore_errors : bool)
    (row : Tr V) : Outcome unit * Tr V :=
  let '(o, cells) := traverse (cell_run fn) (row_childs row) in
  (swallow ignore_errors o, mkTr (row_attrs row) cells).

(** One row of [map_col] with an index. *)
Definition map_col_row (fn : V -> Exception + V) (col_index : Z) (row : Tr V)
    : Outcome unit * Tr V :=
  if col_in_bounds col_index row
  then match row_childs row !! Z.to_nat col_index with
       | Some c => ((cell_run fn c).1,
                    row_with_childs (alter (fun c => (cell_run fn c).2)
                                           (Z.to_nat col_index)) row)
       | None => (Return tt, row)
       end
  else (Raise WidgetDataError, row).
End TableSpec.

Section ClaimsAsWritten.
Context {V : Type}.

(** Following the spec's words: with no index the class goes on every
    non-empty cell of the grid and on no empty cell. *)
Definition col_class_all_spec (css_class : string) (t : TempyTable V) : TempyTable V :=
  with_body t (row_with_childs (fmap (class_if_content css_class)) <$> body t).

(** Following the spec's words: under [ignore_errors] a failing cell is
    skipped and every remaining cell is still processed. *)
Definition cell_skip_on_error (fn : V -> Exception + V) (c : Cell V) : Cell V :=
  match cell_run fn c with
  | (Return _, c') => c'
  | (Raise _, _) => c
  end.

Definition map_row_spec (fn : V -> Exception + V) (r : nat) (t : TempyTable V)
    : TempyTable V :=
  with_body t (alter (row_with_childs (fmap (cell_skip_on_error fn))) r (body t)).

Definition map_col_spec (fn : V -> Exception + V) (j : nat) (t : TempyTable V)
    : TempyTable V :=
  with_body t (row_with_childs (alter (cell_skip_on_error fn) j) <$> body t).

Definition map_table_spec (fn : V -> Exception + V) (t : TempyTable V)
    : TempyTable V :=
  with_body t (row_with_childs (fmap (cell_skip_on_error fn)) <$> body t).

(** The transform went through on a cell; the cell as the transform
    leaves it. *)
Definition cell_ok (fn : V -> Exception + V) (c : Cell V) : Prop :=
  (cell_run fn c).1 = Return tt.

Definition cell_after (fn : V -> Exception + V) (c : Cell V) : Cell V :=
  (cell_run fn c).2.

(** The row for a header or a footer. *)
Definition part_row (inner_tag : CellTag) (data : list (option V)) : Tr V :=
  mkTr ∅ ((fun col => cell_call (mkCell inner_tag ∅ []) col) <$> data).

(** The header and the footer containers among the children of the root. *)
Definition is_Thead (p : Part V) : bool :=
  match p with Thead _ => true | _ => false end.

Definition is_Tfoot (p : Part V) : bool :=
  match p with Tfoot _ => true | _ => false end.

Definition theads (t : TempyTable V) : list (Part V) :=
  List.filter is_Thead (table_childs t).

Definition tfoots (t : TempyTable V) : list (Part V) :=
  List.filter is_Tfoot (table_childs t).
End ClaimsAsWritten.

(** ** Sample tables and transforms *)

Definition text_cell (s : string) : Cell string := mkCell Td ∅ [s].

Definition table_of (rows : list (list (Cell string))) : TempyTable string :=
  mkTable [] (mkTr ∅ <$> rows) [] None None.

(** One row, one column. *)
Definition table_1x1 : TempyTable string := table_of [[text_cell "a"]].

(** Three rows of three cells with content. *)
Definition table_3x3 : TempyTable string :=
  table_of [[text_cell "a"; text_cell "b"; text_cell "c"];
            [text_cell "d"; text_cell "e"; text_cell "f"];
            [text_cell "g"; text_cell "h"; text_cell "i"]].

(** One row with a single cell that has no content. *)
Definition table_empty_cell : TempyTable string := table_of [[new_Td]].

(** A transform that raises on ["bad"] and marks anything else. *)
Definition bang (s : string) : Exception + string :=
  if decide (s = "bad") then inl (UserError "bad") else inr (s +:+ "!").

Definition table_bad : TempyTable string :=
  table_of [[text_cell "a"; text_cell "bad"; text_cell "c"];
            [text_cell "d"; text_cell "bad"; text_cell "e"];
            [text_cell "f"; text_cell "g"; text_cell "h"]].

Definition table_no_head : TempyTable string := table_of [].

(** ** More of TempyTable: rows and cells taken out, row classes, scopes *)

Section TableMore.
Context {V : Type}.

Abbreviation T := (M (TempyTable V)).

(** A position as a Python sequence of [len] items counts it, a negative
    one from the end; [None] when it names no item. *)
Definition py_index (i : Z) (len : nat) : option nat :=
  if bool_decide (0 <= i < Z.of_nat len)%Z then Some (Z.to_nat i)
  else if bool_decide (- Z.of_nat len <= i < 0)%Z then Some (Z.to_nat (Z.of_nat len + i))
  else None.

Definition of_outcome {A} (o : Outcome A) : T A := fun t => (o, t).

(** Modelled from the spec: [pop] and indexing of a node are not in the
    sources; [pop] removes and returns the child at a position, indexing
    returns it, both counting positions as the list of children does.  A
    position that names no child raises; the class of that error is the
    missing code's, [IndexError] stands for it. *)
Definition body_pop (idr : Z) : T (Tr V) :=
  b <- get_body ;;
  match py_index idr (length b) with
  | Some r =>
      match b !! r with
      | Some row => modify (set_body (delete r)) ;; ret row
      | None => raise IndexError
      end
  | None => raise IndexError
  end.

Definition body_getitem (idy : Z) : T nat :=
  b <- get_body ;;
  match py_index idy (length b) with
  | Some r => ret r
  | None => raise IndexError
  end.

Definition row_pop (r : nat) (idx : Z) : T (Cell V) :=
  row <- row_at r ;;
  match py_index idx (row_len row) with
  | Some j =>
      match row_childs row !! j with
      | Some cell => alter_row r (row_with_childs (delete j)) ;; ret cell
      | None => raise IndexError
      end
  | None => raise IndexError
  end.

(** [cell.childs[0]] *)
Definition first_child (c : Cell V) : Outcome V :=
  match cell_childs c with
  | v :: _ => Return v
  | [] => Raise IndexError
  end.

(** [[cell.childs[0] for cell in row]] *)
Fixpoint first_childs (cells : list (Cell V)) : Outcome (list V) :=
  match cells with
  | [] => Return []
  | c :: cells' =>
      match first_child c with
      | Raise ex => Raise ex
      | Return v =>
          match first_childs cells' with
          | Raise ex => Raise ex
          | Return vs => Return (v :: vs)
          end
      end
  end.

Definition pop_row (idr : option Z) (tags : bool) : T (Tr V + list V) :=
  b <- get_body ;;
  let idr := default (Z.of_nat (length b) - 1)%Z idr in
  row <- body_pop idr ;;
  if tags then ret (inl row)
  else vs <- of_outcome (first_childs (row_childs row)) ;; ret (inr vs).

Definition pop_cell (idy idx : option Z) (tags : bool) : T (Cell V + V) :=
  b <- get_body ;;
  let idy := default (Z.of_nat (length b) - 1)%Z idy in
  idx <- match idx with
         | Some idx => ret idx
         | None => r <- body_getitem idy ;;
                   row <- row_at r ;;
                   ret (Z.of_nat (row_len row) - 1)%Z
         end ;;
  r <- body_getitem idy ;;
  cell <- row_pop r idx ;;
  if tags then ret (inl cell)
  else v <- of_outcome (first_child cell) ;; ret (inr v).

(** *** Row classes *)

Definition row_attr (key value : string) (r : Tr V) : Tr V :=
  mkTr (<[key := value]> (row_attrs r)) (row_childs r).

Definition row_class (css_class : string) (row_index : option Z) : T unit :=
  match row_index with
  | None =>
      b <- get_body ;;
      for_each (seq 0 (length b)) (fun r => alter_row r (row_attr "klass" css_class))
  | Some row_index =>
      ok <- is_row_within_bounds row_index ;;
      if ok then alter_row (Z.to_nat row_index) (row_attr "klass" css_class)
      else ret tt
  end.

(** *** Scopes *)

(** The generator of [apply_scope] checks each pair when the loop asks for
    it, on the table as the pairs before it have left it. *)
Definition apply_scope (scope_list : list (Z * Z)) (scope_tag : string) : T unit :=
  let gen : Generator (TempyTable V) (Z * Z) :=
    (fun p => ok_row <- is_row_within_bounds p.1 ;;
              row <- row_at (Z.to_nat p.1) ;;
              ok_col <- is_col_within_bounds p.2 row ;;
              c <- cell_at (Z.to_nat p.1) (Z.to_nat p.2) ;;
              ret (if ok_row && ok_col && cell_nonempty c then Some p else None))
      <$> scope_list in
  for_gen gen (fun p =>
    let r := Z.to_nat p.1 in
    let j := Z.to_nat p.2 in
    cell <- cell_at r j ;;
    v <- of_outcome (first_child cell) ;;
    alter_cell r j (fun _ => cell_call new_Th (Some v)) ;;
    alter_cell r j (fun c => mkCell (cell_tag c) (cell_attrs cell) (cell_childs c)) ;;
    alter_cell r j (cell_attr "scope" scope_tag)).

Definition make_scope (col_scope_list row_scope_list : option (list (Z * Z))) : T unit :=
  (match col_scope_list with
   | Some l => if bool_decide (0 < length l) then apply_scope l "col" else ret tt
   | None => ret tt
   end) ;;
  match row_scope_list with
  | Some l => if bool_decide (0 < length l) then apply_scope l "row" else ret tt
  | None => ret tt
  end.

(** *** The caption and the constructor

    The attribute [caption] of the table: absent, or the position among
    the root's children of the caption it is bound to. *)
Record Widget := mkWidget {
  table : TempyTable V;
  caption : option nat
}.

Abbreviation W := (M Widget).

Definition on_table {A} (m : T A) : W A :=
  fun w => let '(o, t) := m (table w) in (o, mkWidget t (caption w)).

Definition part_empty (p : Part V) : Part V :=
  match p with
  | Tbody _ => Tbody []
  | Thead _ => Thead []
  | Tfoot _ => Tfoot []
  | Caption _ => Caption []
  end.

(** [part(text)] for a caption; [None] adds nothing. *)
Definition caption_call (text : option V) (p : Part V) : Part V :=
  match p with
  | Caption content => Caption (content ++ option_list text)
  | _ => p
  end.

Definition make_caption (text : option V) : W unit :=
  w <- get ;;
  (if negb (node_bool (caption w))
   then modify (fun w => mkWidget (append_child (Caption []) (table w))
                                  (Some (length (table_childs (table w)))))
   else ret tt) ;;
  w <- get ;;
  match caption w with
  | Some i =>
      modify (fun w => mkWidget
                (alter_child i (fun p => caption_call text (part_empty p)) (table w))
                (caption w))
  | None => raise AttributeError
  end.

Section Init.
(** The truth value of a content value. *)
Variable value_bool : V -> bool.

(** [TempyTable.__init__], on the widget as [self(body=Tbody())] has made
    it.  [cols] is set from the data as well, and not read again. *)
Definition __init__ (rows cols : Z) (data : option (list (list (option V))))
    (caption : option V) (head foot : bool) : W unit :=
  let no_data := negb (seq_bool data) in
  let rows := if no_data then rows else Z.of_nat (length (default [] data)) in
  let data :=
    if no_data
    then replicate (Z.to_nat (rows + Z.b2z head + Z.b2z foot))
                   (replicate (Z.to_nat cols) None)
    else default [] data in
  let table_data := data in
  (if from_option value_bool false caption then make_caption caption else ret tt) ;;
  table_data <- (if head && bool_decide (0 < rows)%Z
                 then match table_data with
                      | first :: table_data => on_table (make_header first) ;; ret table_data
                      | [] => raise IndexError
                      end
                 else ret table_data) ;;
  table_data <- (if foot && bool_decide (0 < rows)%Z
                 then match last table_data with
                      | Some final =>
                          on_table (make_footer final) ;;
                          ret (take (length table_data - 1) table_data)
                      | None => raise IndexError
                      end
                 else ret table_data) ;;
  if seq_bool (Some data) then on_table (populate (Some table_data) true true)
  else ret tt.

(** The table that the constructor is given. *)
Definition new_widget : Widget := mkWidget (mkTable [] [] [] None None) None.
End Init.

End TableMore.

Arguments Widget : clear implicits.

(** ** Definitions for further statements *)

Section ScopeSpec.
Context {V : Type}.

(** A cell as [apply_scope] leaves it: a cell with content becomes a
    header cell around its first value, with the attributes it had and the
    scope; a cell without content is passed over. *)
Definition promote (scope_tag : string) (c : Cell V) : Cell V :=
  match cell_childs c with
  | v :: _ => mkCell Th (<["scope" := scope_tag]> (cell_attrs c)) [v]
  | [] => c
  end.

(** A function of the position applied to every cell of a body. *)
Definition map_cells (f : nat -> nat -> Cell V -> Cell V) (b : list (Tr V))
    : list (Tr V) :=
  imap (fun r => row_with_childs (imap (f r))) b.

(** The cell at row [r], column [j] of a body. *)
Definition cell_lookup (b : list (Tr V)) (r j : nat) : option (Cell V) :=
  row ← b !! r; row_childs row !! j.

(** A pair of a scope list names a cell of the body. *)
Definition scope_in_bounds (b : list (Tr V)) (p : Z * Z) : bool :=
  bool_decide (0 <= p.1 < Z.of_nat (length b))%Z &&
  match b !! Z.to_nat p.1 with
  | Some row => col_in_bounds p.2 row
  | None => false
  end.

(** The pairs of a scope list before the first that names no cell. *)
Fixpoint scope_prefix (b : list (Tr V)) (l : list (Z * Z)) : list (Z * Z) :=
  match l with
  | [] => []
  | p :: l' => if scope_in_bounds b p then p :: scope_prefix b l' else []
  end.

Definition listed (l : list (Z * Z)) (r j : nat) : bool :=
  bool_decide ((Z.of_nat r, Z.of_nat j) ∈ l).

(** The cells at the listed positions promoted, the others as they are. *)
Definition promote_all (scope_tag : string) (l : list (Z * Z)) (b : list (Tr V))
    : list (Tr V) :=
  map_cells (fun r j c => if listed l r j then promote scope_tag c else c) b.

(** What a scope list of [make_scope] comes to on a body: whether all its
    pairs name cells, and the pairs that are gone through. *)
Definition scope_stage (b : list (Tr V)) (l : option (list (Z * Z)))
    : bool * list (Z * Z) :=
  match l with
  | Some l => (forallb (scope_in_bounds b) l, scope_prefix b l)
  | None => (true, [])
  end.
End ScopeSpec.

(** The truth value of a text: the empty string is false. *)
Definition text_bool (s : string) : bool := negb (bool_decide (s = EmptyString)).

(** The item that a list of kind [kind] has for an entry of a mapping: the
    key in an item element, followed by the sublist of the same kind
    argument for a true value. *)
Definition li_item_of (kind : TempyList.Tag) (kv : TempyList.Key * TempyList.PyVal)
    (item : TempyList.Node) : Prop :=
  if TempyList.py_bool kv.2
  then exists sub,
         TempyList.TempyList (TempyList.PTag kind) kv.2 = Return sub /\
         item = TempyList.node_call sub (TempyList.elem_of_key TempyList.Li kv.1)
  else item = TempyList.elem_of_key TempyList.Li kv.1.

(** The mappings that have the key ['_typ'] among the values of a struct,
    at any depth, the struct itself included: those that a run takes the
    key out of when it reaches them. *)
Fixpoint typ_dicts (v : TempyList.PyVal) : list TempyList.PyVal :=
  match v with
  | TempyList.PDict d =>
      (if bool_decide (is_Some (TempyList.dict_get d (Some "_typ")))
       then [v] else [])
      ++ concat ((fun kv => typ_dicts kv.2) <$> d)
  | _ => []
  end.

(** A term or a definition that holds contents only, no element. *)
Definition is_flat_term (n : TempyList.Node) : bool :=
  match n with
  | TempyList.Elem tag childs =>
      match tag with TempyList.Dt | TempyList.Dd => true | _ => false end &&
      forallb (fun c => match c with TempyList.Content _ => true | _ => false end) childs
  | TempyList.Content _ => false
  end.

Definition is_term (n : TempyList.Node) : bool :=
  match n with
  | TempyList.Elem tag _ => match tag with TempyList.Dt => true | _ => false end
  | TempyList.Content _ => false
  end.

(** * Facts *)

Lemma run_bind_Return {S A A'} (m : M S A) (k : A -> M S A') s a s' :
  m s = (Return a, s') -> bind m k s = k a s'.
Proof. intros H. unfold bind. by rewrite H. Qed.

Lemma run_bind_Raise {S A A'} (m : M S A) (k : A -> M S A') s e s' :
  m s = (Raise e, s') -> bind m k s = (Raise e, s').
Proof. intros H. unfold bind. by rewrite H. Qed.

Lemma alter_middle {A} (f : A -> A) (l : list A) x l' :
  alter f (length l) (l ++ x :: l') = l ++ f x :: l'.
Proof. rewrite <- (Nat.add_0_r (length l)). by rewrite alter_app_r. Qed.

Section TableFacts.
Context {V : Type}.
Implicit Types (t : TempyTable V) (d_row : list (option V)) (B : list (Tr V)).

Lemma set_body_eq t f B : body t = B -> set_body f t = with_body t (f B).
Proof. intros <-. reflexivity. Qed.

Lemma with_body_with_body t B B' : with_body (with_body t B) B' = with_body t B'.
Proof. reflexivity. Qed.

Lemma body_with_body t B : body (with_body t B) = B.
Proof. reflexivity. Qed.

Lemma with_body_id t : with_body t (body t) = t.
Proof. by destruct t. Qed.

Lemma row_at_middle t B row B' :
  body t = B ++ row :: B' -> row_at (length B) t = (Return row, t).
Proof.
  intros Hb. unfold row_at, get_body, bind. rewrite Hb.
  by rewrite list_lookup_middle.
Qed.

Lemma alter_row_middle t B row B' f :
  body t = B ++ row :: B' ->
  alter_row (length B) f t = (Return tt, with_body t (B ++ f row :: B')).
Proof.
  intros Hb. unfold alter_row, modify. f_equal.
  rewrite (set_body_eq _ _ _ Hb). f_equal. apply alter_middle.
Qed.

Lemma cell_at_middle t B a cs c cs' B' :
  body t = B ++ mkTr a (cs ++ c :: cs') :: B' ->
  cell_at (length B) (length cs) t = (Return c, t).
Proof.
  intros Hb. unfold cell_at.
  rewrite (run_bind_Return _ _ _ _ _ (row_at_middle _ _ _ _ Hb)). simpl.
  by rewrite list_lookup_middle.
Qed.

Lemma alter_cell_middle t B a cs c cs' B' f :
  body t = B ++ mkTr a (cs ++ c :: cs') :: B' ->
  alter_cell (length B) (length cs) f t
  = (Return tt, with_body t (B ++ mkTr a (cs ++ f c :: cs') :: B')).
Proof.
  intros Hb. unfold alter_cell. rewrite (alter_row_middle _ _ _ _ _ Hb).
  do 3 f_equal. unfold row_with_childs. simpl. by rewrite alter_middle.
Qed.

Lemma Td_append_to_last t B a cs :
  body t = B ++ [mkTr a cs] ->
  Td_append_to (length B) t
  = (Return (length cs), with_body t (B ++ [mkTr a (cs ++ [new_Td])])).
Proof.
  intros Hb. unfold Td_append_to.
  rewrite (run_bind_Return _ _ _ _ _ (row_at_middle _ _ _ _ Hb)).
  rewrite (run_bind_Return _ _ _ _ _ (alter_row_middle _ _ _ _ _ Hb)).
  reflexivity.
Qed.

Lemma next_cell_None r t : next_cell r None t = (Return (None, None), t).
Proof. reflexivity. Qed.

Lemma next_row_None t : next_row None t = (Return (None, None), t).
Proof. reflexivity. Qed.

(** A cell appended by [populate] under [resize_x]. *)
Lemma populate_cell_append t B a cs d_cell :
  body t = B ++ [mkTr a cs] ->
  populate_cell true (length B) None d_cell t
  = (Return tt, with_body t (B ++ [mkTr a (cs ++ [cell_of d_cell])])).
Proof.
  intros Hb. unfold populate_cell. simpl.
  rewrite (run_bind_Return _ _ _ _ _
    (run_bind_Return _ _ _ _ _ (Td_append_to_last _ _ _ _ Hb))).
  erewrite run_bind_Return; last by apply (alter_cell_middle _ B a cs new_Td [] []).
  destruct d_cell as [v|]; simpl.
  - erewrite (alter_cell_middle _ B a cs _ [] []) by reflexivity.
    by rewrite with_body_with_body.
  - reflexivity.
Qed.

Lemma populate_cells_append d_row : forall t B a cs,
  body t = B ++ [mkTr a cs] ->
  populate_cells true (length B) None d_row t
  = (Return tt, with_body t (B ++ [mkTr a (cs ++ (cell_of <$> d_row))])).
Proof.
  induction d_row as [|d_cell d_row IH]; intros t B a cs Hb;
    cbn [populate_cells].
  - rewrite fmap_nil, app_nil_r, <- Hb. by rewrite with_body_id.
  - rewrite (run_bind_Return _ _ _ _ _ (next_cell_None _ _)).
    cbn [fst snd].
    rewrite (run_bind_Return _ _ _ _ _ (populate_cell_append _ _ _ _ _ Hb)).
    erewrite IH by reflexivity.
    by rewrite with_body_with_body, fmap_cons, <- app_assoc.
Qed.

Lemma Tr_append_to_body_run t B :
  body t = B ->
  Tr_append_to_body t = (Return (length B), with_body t (B ++ [new_Tr])).
Proof. intros <-. reflexivity. Qed.

Lemma seq_bool_cons {A} (l : list A) :
  seq_bool (Some l) = true -> exists x l', l = x :: l'.
Proof. destruct l; [done | eauto]. Qed.

Lemma ljust_cons {A} (x : A) l n fill :
  ljust (x :: l) n fill = x :: ljust l (Nat.pred n) fill.
Proof. unfold ljust. simpl. do 3 f_equal. lia. Qed.

(** One data row under [resize_x] when the body iterator is used up: an
    empty row raises, any other row is appended as a new row of cells. *)
Lemma populate_row_append normalize max_data_x t B d_row :
  body t = B ->
  populate_row true normalize max_data_x None (Some d_row) t
  = if seq_bool (Some d_row)
    then (Return tt,
          with_body t (B ++ [row_of (if normalize then ljust d_row max_data_x None
                                     else d_row)]))
    else (Raise AttributeError, t).
Proof.
  intros Hb. unfold populate_row.
  destruct (seq_bool (Some d_row)) eqn:Hd; simpl; [|done].
  apply seq_bool_cons in Hd as (d_cell & d_row' & ->).
  rewrite (run_bind_Return _ _ _ _ _ (Tr_append_to_body_run _ _ Hb)).
  assert (exists c cs, (if normalize then ljust (d_cell :: d_row') max_data_x None
                        else d_cell :: d_row') = c :: cs) as (c & cs & ->).
  { destruct normalize; [rewrite ljust_cons|]; by eexists _, _. }
  cbn [populate_cells].
  erewrite run_bind_Return; last first.
  { unfold next_cell. erewrite run_bind_Return; last by apply (row_at_middle _ B _ []).
    reflexivity. }
  cbn [iter_next row_len new_Tr row_childs length fst snd].
  rewrite decide_False by lia. cbn [fst snd].
  erewrite run_bind_Return;
    last by apply (populate_cell_append _ B ∅ []).
  erewrite populate_cells_append by reflexivity.
  by rewrite with_body_with_body.
Qed.

Lemma populate_rows_append normalize max_data_x data : forall t B,
  body t = B ->
  populate_rows true normalize max_data_x None data t
  = ((built_rows normalize max_data_x data).1,
     with_body t (B ++ (built_rows normalize max_data_x data).2)).
Proof.
  induction data as [|d_row data IH]; intros t B Hb; simpl.
  - rewrite app_nil_r, <- Hb. by rewrite with_body_id.
  - rewrite (run_bind_Return _ _ _ _ _ (next_row_None _)).
    cbn [fst snd].
    unfold bind at 1. rewrite (populate_row_append _ _ _ _ _ Hb).
    destruct d_row as [|d_cell d_row]; simpl.
    + rewrite app_nil_r, <- Hb. by rewrite with_body_id.
    + erewrite IH by reflexivity.
      destruct (built_rows normalize max_data_x data) as [o rows]; simpl.
      by rewrite with_body_with_body, <- app_assoc.
Qed.

Lemma populate_rows_cleared normalize max_data_x data t :
  body t = [] ->
  populate_rows true normalize max_data_x (Some 0) data t
  = ((built_rows normalize max_data_x data).1,
     with_body t (built_rows normalize max_data_x data).2).
Proof.
  intros Hb.
  transitivity (populate_rows true normalize max_data_x None data t);
    [|by rewrite (populate_rows_append _ _ _ _ _ Hb)].
  destruct data as [|d_row data]; cbn [populate_rows].
  - unfold bind, get_body. by rewrite Hb.
  - assert (next_row (Some 0) t = (Return (None, None), t)) as Hnext.
    { unfold next_row, bind, get_body. by rewrite Hb. }
    rewrite (run_bind_Return _ _ _ _ _ Hnext).
    by rewrite (run_bind_Return _ _ _ _ _ (next_row_None _)).
Qed.

(** What [populate] does under [resize_x]: the body is cleared and rebuilt
    from the data alone. *)
Lemma populate_resize normalize data t :
  populate (Some data) true normalize t
  = match data with
    | [] => (Raise ValueError, with_body t [])
    | _ => ((built_rows normalize (max_list (length <$> data)) data).1,
            with_body t (built_rows normalize (max_list (length <$> data)) data).2)
    end.
Proof.
  unfold populate.
  rewrite (run_bind_Return _ _ t (body t) t) by reflexivity.
  cbn [node_bool negb].
  rewrite (run_bind_Return _ _ t tt t) by reflexivity.
  rewrite (run_bind_Return _ _ t tt (with_body t [])) by reflexivity.
  destruct data as [|d_row data]; [reflexivity|].
  set (data' := d_row :: data).
  rewrite (run_bind_Return _ _ _ (max_list (length <$> data')) (with_body t []))
    by reflexivity.
  cbn [negb].
  rewrite (run_bind_Return _ _ _ tt (with_body t [])) by reflexivity.
  by rewrite populate_rows_cleared.
Qed.
End TableFacts.

(** ** Loops over the rows of the body and the cells of a row *)

Section Traverse.
Context {A : Type} (f : A -> Outcome unit * A).

Lemma traverse_ok l :
  Forall (fun x => (f x).1 = Return tt) l ->
  traverse f l = (Return tt, (fun x => (f x).2) <$> l).
Proof.
  induction 1 as [|x l Hx _ IH]; simpl; [done|].
  destruct (f x) as [[[]|ex] x']; simpl in *; [|done].
  by rewrite IH.
Qed.

Lemma traverse_fail pre x post ex :
  Forall (fun x => (f x).1 = Return tt) pre ->
  (f x).1 = Raise ex ->
  traverse f (pre ++ x :: post)
  = (Raise ex, ((fun x => (f x).2) <$> pre) ++ (f x).2 :: post).
Proof.
  intros Hpre Hx. induction Hpre as [|y pre Hy _ IH]; simpl.
  - destruct (f x) as [[[]|ex'] x']; simpl in *; congruence.
  - destruct (f y) as [[[]|ex'] y']; simpl in *; [|done].
    by rewrite IH.
Qed.

Lemma traverse_length l : length (traverse f l).2 = length l.
Proof.
  induction l as [|x l IH]; simpl; [done|].
  destruct (f x) as [[[]|ex] x']; simpl; [|done].
  destruct (traverse f l); simpl in *. by rewrite IH.
Qed.
End Traverse.

Lemma for_gen_fmap {S A I} (g : I -> M S (option A)) (body : A -> M S unit)
    (l : list I) s :
  for_gen (g <$> l) body s
  = for_each l (fun i => x <- g i ;;
                         match x with Some a => body a | None => ret tt end) s.
Proof.
  revert s. induction l as [|i l IH]; intros s; [done|].
  rewrite fmap_cons. cbn [for_gen for_each]. unfold bind at 1 2 3 4.
  destruct (g i s) as [[x|ex] s']; [|done].
  destruct (match x with Some a => body a | None => ret tt end s') as [[[]|ex] s''];
    [apply IH | done].
Qed.

Lemma for_each_ext {S A} (f g : A -> M S unit) (l : list A) :
  (forall x, x ∈ l -> forall s, f x s = g x s) ->
  forall s, for_each l f s = for_each l g s.
Proof.
  induction l as [|x l IH]; intros Hfg s; [done|].
  cbn [for_each]. unfold bind. rewrite (Hfg x) by by left.
  destruct (g x s) as [[[]|ex] s']; [|done].
  apply IH. intros y Hy. apply Hfg. by right.
Qed.

Section Loops.
Context {V : Type}.
Implicit Types (t : TempyTable V) (B : list (Tr V)) (row : Tr V) (c : Cell V).

(** A loop over the positions of the rows, each step of which acts on its
    own row as [f] says and stops the loop when [f] raises. *)
Lemma for_each_rows (step : nat -> M (TempyTable V) unit) f :
  (forall t B row B', body t = B ++ row :: B' ->
     step (length B) t = ((f row).1, with_body t (B ++ (f row).2 :: B'))) ->
  forall B' B t, body t = B ++ B' ->
    for_each (seq (length B) (length B')) step t
    = ((traverse f B').1, with_body t (B ++ (traverse f B').2)).
Proof.
  intros Hstep. induction B' as [|row B' IH]; intros B t Hb; simpl.
  - rewrite app_nil_r in *. rewrite <- Hb. by rewrite with_body_id.
  - unfold bind. rewrite (Hstep _ _ _ _ Hb).
    destruct (f row) as [[[]|ex] row']; simpl; [|done].
    specialize (IH (B ++ [row']) (with_body t (B ++ row' :: B'))).
    rewrite length_app, Nat.add_1_r in IH. rewrite IH.
    + destruct (traverse f B'); simpl.
      by rewrite with_body_with_body, <- app_assoc.
    + simpl. by rewrite <- app_assoc.
Qed.

(** The same for the positions of the cells of one row. *)
Lemma for_each_cells (step : nat -> M (TempyTable V) unit) g B a B' :
  (forall t cs c cs', body t = B ++ mkTr a (cs ++ c :: cs') :: B' ->
     step (length cs) t
     = ((g c).1, with_body t (B ++ mkTr a (cs ++ (g c).2 :: cs') :: B'))) ->
  forall cs' cs t, body t = B ++ mkTr a (cs ++ cs') :: B' ->
    for_each (seq (length cs) (length cs')) step t
    = ((traverse g cs').1,
       with_body t (B ++ mkTr a (cs ++ (traverse g cs').2) :: B')).
Proof.
  intros Hstep. induction cs' as [|c cs' IH]; intros cs t Hb; simpl.
  - rewrite app_nil_r in *. rewrite <- Hb. by rewrite with_body_id.
  - unfold bind. rewrite (Hstep _ _ _ _ Hb).
    destruct (g c) as [[[]|ex] c']; simpl; [|done].
    specialize (IH (cs ++ [c']) (with_body t (B ++ mkTr a (cs ++ c' :: cs') :: B'))).
    rewrite length_app, Nat.add_1_r in IH. rewrite IH.
    + destruct (traverse g cs'); simpl.
      by rewrite with_body_with_body, <- app_assoc.
    + simpl. by rewrite <- app_assoc.
Qed.

Lemma for_each_rows_all (step : nat -> M (TempyTable V) unit) f t :
  (forall t B row B', body t = B ++ row :: B' ->
     step (length B) t = ((f row).1, with_body t (B ++ (f row).2 :: B'))) ->
  for_each (seq 0 (length (body t))) step t
  = ((traverse f (body t)).1, with_body t (traverse f (body t)).2).
Proof. intros Hstep. by apply (for_each_rows step f Hstep (body t) []). Qed.

Lemma for_each_cells_all (step : nat -> M (TempyTable V) unit) g B a cs B' t :
  (forall t cs c cs', body t = B ++ mkTr a (cs ++ c :: cs') :: B' ->
     step (length cs) t
     = ((g c).1, with_body t (B ++ mkTr a (cs ++ (g c).2 :: cs') :: B'))) ->
  body t = B ++ mkTr a cs :: B' ->
  for_each (seq 0 (length cs)) step t
  = ((traverse g cs).1, with_body t (B ++ mkTr a (traverse g cs).2 :: B')).
Proof. intros Hstep Hb. by apply (for_each_cells step g B a B' Hstep cs []). Qed.

(** *** col_class *)

Lemma col_class_all_run css_class t :
  col_class css_class None t
  = (Return tt,
     with_body t (row_with_childs (fmap (cell_attr "klass" css_class)) <$> body t)).
Proof.
  unfold col_class.
  rewrite (run_bind_Return _ _ t (body t) t) by reflexivity.
  rewrite (for_each_rows_all _
    (fun row => (Return tt, row_with_childs (fmap (cell_attr "klass" css_class)) row))).
  - rewrite traverse_ok by by apply Forall_true. done.
  - clear t. intros t B [a cells] B' Hb.
    rewrite (run_bind_Return _ _ _ _ _ (row_at_middle _ _ _ _ Hb)).
    rewrite (for_each_cells_all _ (fun c => (Return tt, cell_attr "klass" css_class c))
      B a cells B' t);
      [|intros t' cs c cs' Hb'; exact (alter_cell_middle _ _ _ _ _ _ _ _ Hb')|done].
    rewrite traverse_ok by by apply Forall_true. done.
Qed.

Lemma col_in_bounds_lookup col_index row :
  col_in_bounds col_index row = true ->
  exists cs c cs', row_childs row = cs ++ c :: cs' /\ length cs = Z.to_nat col_index.
Proof.
  unfold col_in_bounds, row_len. intros [H0 Hlt]%andb_true_iff.
  apply bool_decide_eq_true in H0, Hlt.
  destruct (lookup_lt_is_Some_2 (row_childs row) (Z.to_nat col_index)) as [c Hc];
    [lia|].
  apply list_elem_of_split_length in Hc as (cs & cs' & Hrow & Hlen). eauto.
Qed.

Lemma col_class_index_run css_class col_index t :
  col_class css_class (Some col_index) t
  = ((traverse (col_class_row css_class col_index) (body t)).1,
     with_body t (traverse (col_class_row css_class col_index) (body t)).2).
Proof.
  unfold col_class.
  rewrite (run_bind_Return _ _ t (body t) t) by reflexivity.
  apply for_each_rows_all. clear t. intros t B row B' Hb.
  rewrite (run_bind_Return _ _ _ _ _ (row_at_middle _ _ _ _ Hb)).
  unfold col_class_row, is_col_within_bounds.
  fold (row_len row). fold (col_in_bounds col_index row).
  destruct (col_in_bounds col_index row) eqn:Hin;
    [|cbn [fst snd]; rewrite <- Hb, with_body_id; reflexivity].
  rewrite (run_bind_Return _ _ t true t) by reflexivity.
  destruct (col_in_bounds_lookup _ _ Hin) as (cs & c & cs' & Hrow & Hlen).
  destruct row as [a cells]; simpl in Hrow; subst cells. rewrite <- Hlen.
  rewrite (run_bind_Return _ _ _ _ _ (cell_at_middle _ _ _ _ _ _ _ Hb)).
  cbn [andb fst snd]. unfold row_with_childs; cbn [row_attrs row_childs].
  rewrite alter_middle.
  unfold class_if_content.
  destruct (cell_nonempty c).
  - by apply alter_cell_middle.
  - by rewrite <- Hb, with_body_id.
Qed.
End Loops.

(** ** Mapping a function over cells *)

Section Maps.
Context {V : Type}.
Implicit Types (t : TempyTable V) (B : list (Tr V)) (row : Tr V) (c : Cell V).
Implicit Types (fn : V -> Exception + V).

Lemma cell_run_empty fn c : cell_nonempty c = false -> cell_run fn c = (Return tt, c).
Proof.
  unfold cell_nonempty, cell_run. intros Hc%bool_decide_eq_false.
  destruct c as [tag attrs [|v childs]]; simpl in *; [done | lia].
Qed.

Lemma cell_apply_function_run fn t B a cs c cs' B' :
  body t = B ++ mkTr a (cs ++ c :: cs') :: B' ->
  cell_apply_function fn (length B, length cs) t
  = ((cell_run fn c).1,
     with_body t (B ++ mkTr a (cs ++ (cell_run fn c).2 :: cs') :: B')).
Proof.
  intros Hb. unfold cell_apply_function, cell_run. cbn [fst snd].
  rewrite (run_bind_Return _ _ _ _ _ (cell_at_middle _ _ _ _ _ _ _ Hb)).
  destruct (apply_function fn (cell_childs c)) as [o childs].
  erewrite run_bind_Return; last by apply alter_cell_middle.
  by destruct o as [[]|ex].
Qed.

(** One step of the loop over the generator of the cells with content. *)
Lemma nonempty_cell_step fn t B a cs c cs' B' :
  body t = B ++ mkTr a (cs ++ c :: cs') :: B' ->
  (x <- (c <- cell_at (length B) (length cs) ;;
         ret (if cell_nonempty c then Some (length B, length cs) else None)) ;;
   match x with
   | Some ref => cell_apply_function fn ref
   | None => ret tt
   end) t
  = ((cell_run fn c).1,
     with_body t (B ++ mkTr a (cs ++ (cell_run fn c).2 :: cs') :: B')).
Proof.
  intros Hb.
  rewrite (run_bind_Return _ _ _ _ _
    (run_bind_Return _ _ _ _ _ (cell_at_middle _ _ _ _ _ _ _ Hb))).
  destruct (cell_nonempty c) eqn:Hc.
  - by apply cell_apply_function_run.
  - rewrite cell_run_empty by done. cbn [fst snd]. by rewrite <- Hb, with_body_id.
Qed.

Lemma apply_function_to_cells_run fn ignore_errors t B a cs B' :
  body t = B ++ mkTr a cs :: B' ->
  apply_function_to_cells (nonempty_cells (length B) (length cs)) fn ignore_errors t
  = (swallow ignore_errors (traverse (cell_run fn) cs).1,
     with_body t (B ++ mkTr a (traverse (cell_run fn) cs).2 :: B')).
Proof.
  intros Hb. unfold apply_function_to_cells, try_except, nonempty_cells.
  rewrite for_gen_fmap.
  rewrite (for_each_cells_all _ (cell_run fn) B a cs B' t);
    [|intros t' cs1 c cs2 Hb'; exact (nonempty_cell_step _ _ _ _ _ _ _ _ Hb')|done].
  destruct (traverse (cell_run fn) cs) as [[[]|ex] cells]; simpl; [done|].
  by destruct ignore_errors.
Qed.

Lemma map_table_run fn ignore_errors t :
  map_table fn ignore_errors t
  = ((traverse (map_table_row fn ignore_errors) (body t)).1,
     with_body t (traverse (map_table_row fn ignore_errors) (body t)).2).
Proof.
  unfold map_table.
  rewrite (run_bind_Return _ _ t (body t) t) by reflexivity.
  apply for_each_rows_all. clear t. intros t B [a cs] B' Hb.
  rewrite (run_bind_Return _ _ _ _ _ (row_at_middle _ _ _ _ Hb)).
  unfold row_len, map_table_row. cbn [row_childs row_attrs].
  rewrite (apply_function_to_cells_run _ _ _ _ _ _ _ Hb).
  by destruct (traverse (cell_run fn) cs).
Qed.

Lemma map_row_run fn ignore_errors t B a cs B' :
  body t = B ++ mkTr a cs :: B' ->
  map_row fn (Some (Z.of_nat (length B))) ignore_errors t
  = (swallow ignore_errors (traverse (cell_run fn) cs).1,
     with_body t (B ++ mkTr a (traverse (cell_run fn) cs).2 :: B')).
Proof.
  intros Hb. unfold map_row, is_row_within_bounds.
  rewrite (run_bind_Return _ _ t true t).
  - rewrite Nat2Z.id.
    rewrite (run_bind_Return _ _ _ _ _ (row_at_middle _ _ _ _ Hb)).
    by apply apply_function_to_cells_run.
  - rewrite (run_bind_Return _ _ t (body t) t) by reflexivity.
    rewrite Hb, length_app. simpl.
    rewrite !bool_decide_eq_true_2 by lia. done.
Qed.

Lemma map_col_step fn col_index t B row B' :
  body t = B ++ row :: B' ->
  (x <- (row <- row_at (length B) ;;
         ok <- is_col_within_bounds col_index row ;;
         c <- cell_at (length B) (Z.to_nat col_index) ;;
         ret (if ok && cell_nonempty c
              then Some (length B, Z.to_nat col_index) else None)) ;;
   match x with
   | Some ref => cell_apply_function fn ref
   | None => ret tt
   end) t
  = ((map_col_row fn col_index row).1,
     with_body t (B ++ (map_col_row fn col_index row).2 :: B')).
Proof.
  intros Hb. unfold map_col_row, is_col_within_bounds.
  fold (row_len row). fold (col_in_bounds col_index row).
  destruct (col_in_bounds col_index row) eqn:Hin.
  - destruct (col_in_bounds_lookup _ _ Hin) as (cs & c & cs' & Hrow & Hlen).
    destruct row as [a cells]; simpl in Hrow; subst cells. rewrite <- Hlen.
    cbn [row_childs]. rewrite list_lookup_middle by done.
    unfold row_with_childs; cbn [row_attrs row_childs fst snd].
    rewrite alter_middle.
    erewrite (run_bind_Return (bind _ _)); last first.
    { rewrite (run_bind_Return _ _ _ _ _ (row_at_middle _ _ _ _ Hb)).
      unfold col_in_bounds, row_len in Hin. rewrite Hin.
      rewrite (run_bind_Return _ _ t true t) by reflexivity.
      rewrite (run_bind_Return _ _ _ _ _ (cell_at_middle _ _ _ _ _ _ _ Hb)).
      reflexivity. }
    cbn [andb]. destruct (cell_nonempty c) eqn:Hc.
    + by apply cell_apply_function_run.
    + rewrite cell_run_empty by done. cbn [fst snd]. by rewrite <- Hb, with_body_id.
  - erewrite (run_bind_Raise (bind _ _)); last first.
    { rewrite (run_bind_Return _ _ _ _ _ (row_at_middle _ _ _ _ Hb)).
      unfold col_in_bounds, row_len in Hin. rewrite Hin. reflexivity. }
    cbn [fst snd]. by rewrite <- Hb, with_body_id.
Qed.

Lemma map_col_run fn col_index ignore_errors t :
  map_col fn (Some col_index) ignore_errors t
  = (swallow ignore_errors (traverse (map_col_row fn col_index) (body t)).1,
     with_body t (traverse (map_col_row fn col_index) (body t)).2).
Proof.
  unfold map_col.
  rewrite (run_bind_Return _ _ t (body t) t) by reflexivity.
  unfold try_except. rewrite for_gen_fmap.
  rewrite (for_each_rows_all _ (map_col_row fn col_index));
    [|intros t' B row B' Hb; exact (map_col_step _ _ _ _ _ _ Hb)].
  destruct (traverse (map_col_row fn col_index) (body t)) as [[[]|ex] rows];
    simpl; [done|].
  by destruct ignore_errors.
Qed.
End Maps.

(** ** populate *)

Section Populate.
Context {V : Type}.
Implicit Types (t : TempyTable V) (data : list (list (option V))).

(** Without [resize_x] the width check runs on a body that [populate] has
    just cleared, so it never fires; the rebuild then fails on the first
    row, which has no cell to fill. *)
Lemma populate_fixed_width_run normalize data t :
  populate (Some data) false normalize t
  = match data with
    | [] => (Raise ValueError, with_body t [])
    | [] :: _ => (Raise AttributeError, with_body t [])
    | (_ :: _) :: _ => (Raise AttributeError, with_body t [new_Tr])
    end.
Proof.
  destruct data as [|[|d_cell d_row] data]; [done|done|].
  by destruct normalize.
Qed.

Lemma populate_fixed_width_never_DataError normalize data t :
  (populate (Some data) false normalize t).1 <> Raise WidgetDataError.
Proof.
  rewrite populate_fixed_width_run.
  by destruct data as [|[|d_cell d_row] data].
Qed.

(** [add_row] runs the same check on the body as it stands. *)
Lemma add_row_fixed_width_DataError (row_data : list (option V)) t :
  body t <> [] ->
  column_count t < length row_data ->
  add_row row_data false t = (Raise WidgetDataError, t).
Proof.
  intros Hne Hlt. unfold add_row. cbn [negb].
  erewrite run_bind_Raise; [done|].
  unfold _check_row_size.
  rewrite (run_bind_Return _ _ t (body t) t) by reflexivity.
  rewrite bool_decide_eq_false_2 by done.
  unfold column_count in Hlt. by rewrite bool_decide_eq_true_2.
Qed.

Lemma max_list_const (ns : list nat) n :
  ns <> [] -> Forall (fun m => m = n) ns -> max_list ns = n.
Proof.
  intros Hne Hall. induction Hall as [|m ns -> Hall IH]; [done|].
  simpl. destruct ns as [|m' ns]; [simpl; lia|].
  rewrite IH by done. lia.
Qed.

Lemma ljust_full {A} (l : list A) fill : ljust l (length l) fill = l.
Proof. unfold ljust. by rewrite Nat.sub_diag, app_nil_r. Qed.

Lemma built_rows_rectangular C data :
  0 < C ->
  Forall (fun d_row => length d_row = C) data ->
  built_rows (V:=V) true C data = (Return tt, row_of <$> data).
Proof.
  intros HC. induction 1 as [|d_row data Hlen _ IH]; simpl; [done|].
  destruct d_row as [|d_cell d_row]; simpl in *; [lia|].
  rewrite IH. rewrite <- Hlen. by rewrite (ljust_full (d_cell :: d_row)).
Qed.

(** Rectangular data with at least one row and one column rebuild the
    body into the grid of the data. *)
Lemma populate_rectangular C data t :
  data <> [] -> 0 < C ->
  Forall (fun d_row => length d_row = C) data ->
  populate (Some data) true true t = (Return tt, with_body t (row_of <$> data)).
Proof.
  intros Hne HC Hall. rewrite populate_resize.
  destruct data as [|d_row data]; [done|].
  rewrite (max_list_const _ C), (built_rows_rectangular C); [done..| |].
  - done.
  - by apply Forall_fmap.
Qed.

Lemma cell_of_content (d_cell : option V) :
  cell_of d_cell = mkCell Td ∅ (option_list d_cell).
Proof. by destruct d_cell. Qed.

(** The cell at row [i], column [j] of the rebuilt body holds the value
    of the data there and nothing else. *)
Lemma populate_rectangular_cell C data t i j d_row d_cell :
  data <> [] -> 0 < C ->
  Forall (fun d_row => length d_row = C) data ->
  data !! i = Some d_row -> d_row !! j = Some d_cell ->
  exists row c,
    body (populate (Some data) true true t).2 !! i = Some row /\
    row_len row = C /\
    row_childs row !! j = Some c /\
    cell_childs c = option_list d_cell.
Proof.
  intros Hne HC Hall Hi Hj.
  rewrite (populate_rectangular C) by done. cbn [snd].
  exists (row_of d_row), (cell_of d_cell). split_and!.
  - rewrite body_with_body, list_lookup_fmap, Hi. done.
  - unfold row_len, row_of. cbn. rewrite length_fmap.
    by apply (Forall_lookup_1 _ _ _ _ Hall Hi).
  - unfold row_of. cbn. by rewrite list_lookup_fmap, Hj.
  - by rewrite cell_of_content.
Qed.

(** C8: [populate(None)] raises [WidgetDataError] whatever the table and
    the flags [resize_x] and [normalize] are, and leaves the whole table
    (body rows, header, footer, caption) as it was. *)
Theorem populate_None_DataError resize_x normalize t :
  populate None resize_x normalize t = (Raise WidgetDataError, t).
Proof. reflexivity. Qed.

(** C9: when [populate(data, resize_x=True, normalize=True)] succeeds on
    a table, a second call with the same data succeeds as well and leaves
    a body equal to the one the first call left: same rows, same cells,
    same contents. *)
Theorem populate_idempotent data t t1 :
  populate (Some data) true true t = (Return tt, t1) ->
  exists t2, populate (Some data) true true t1 = (Return tt, t2) /\
             body t2 = body t1.
Proof.
  rewrite !populate_resize. destruct data as [|d_row data]; [done|].
  set (built := built_rows _ _ _). intros Hrun. injection Hrun as Ho <-.
  eexists. rewrite Ho. split; [reflexivity|done].
Qed.

(** C10: [populate(data, resize_x=True, normalize=True)] rebuilds the body
    from the data alone: on any two tables the call has the same outcome
    and leaves equal bodies, and on any table it does what it does on that
    table with its body emptied. *)
Theorem populate_full_rebuild data t1 t2 :
  (populate (Some data) true true t1).1 = (populate (Some data) true true t2).1 /\
  body (populate (Some data) true true t1).2 = body (populate (Some data) true true t2).2 /\
  populate (Some data) true true (with_body t1 []) = populate (Some data) true true t1.
Proof.
  rewrite !populate_resize. by destruct data as [|d_row data].
Qed.

(** C5 at the empty grid: [populate([], resize_x=True, normalize=True)]
    empties the body and then raises [ValueError], the maximum row length
    of no rows being undefined, on every table. *)
Theorem populate_empty_list_ValueError t :
  populate (Some []) true true t = (Raise ValueError, with_body t []).
Proof. reflexivity. Qed.

End Populate.

(** C1 on a table of one column: [populate] with one row of two values
    and [resize_x=False] does not raise [WidgetDataError]; it empties the
    body, appends a row without cells and raises [AttributeError]. *)
Theorem populate_fixed_width_wider_data :
  column_count table_1x1 = 1 /\
  populate (Some [[Some "x"; Some "y"]]) false true table_1x1
  = (Raise AttributeError, with_body table_1x1 [new_Tr]).
Proof. split; reflexivity. Qed.

Lemma populate_idempotent_witness :
  exists t2, populate (Some [[Some "x"; None]; [Some "y"; Some "z"]]) true true
               (with_body table_1x1
                  [row_of [Some "x"; None]; row_of [Some "y"; Some "z"]])
             = (Return tt, t2) /\
             body t2 = [row_of [Some "x"; None]; row_of [Some "y"; Some "z"]].
Proof.
  apply (populate_idempotent [[Some "x"; None]; [Some "y"; Some "z"]] table_1x1).
  reflexivity.
Defined.

(** ** col_class *)

Section ColClass.
Context {V : Type}.
Implicit Types (t : TempyTable V) (row : Tr V).

Lemma col_class_row_in_bounds css_class col_index (rows : list (Tr V)) :
  Forall (fun row => col_in_bounds col_index row = true) rows ->
  traverse (col_class_row css_class col_index) rows
  = (Return tt,
     row_with_childs (alter (class_if_content css_class) (Z.to_nat col_index)) <$> rows).
Proof.
  intros Hall. rewrite traverse_ok.
  - f_equal. apply Forall_fmap_ext_1. eapply Forall_impl; [exact Hall|].
    intros row Hrow. unfold col_class_row. by rewrite Hrow.
  - eapply Forall_impl; [exact Hall|].
    intros row Hrow. unfold col_class_row. by rewrite Hrow.
Qed.

Lemma col_out_of_count col_index t row :
  row ∈ body t ->
  ~ (0 <= col_index < Z.of_nat (column_count t))%Z ->
  col_in_bounds col_index row = false.
Proof.
  intros Hrow Hout. unfold col_in_bounds.
  assert (row_len row <= column_count t).
  { apply max_list_elem_of_le, list_elem_of_fmap. eauto. }
  apply andb_false_iff.
  destruct (decide (0 <= col_index)%Z).
  - right. apply bool_decide_eq_false. lia.
  - left. by apply bool_decide_eq_false.
Qed.

(** C6, as the code has it: with no column index [col_class] sets the
    class attribute on every cell of the body, with content or without;
    with an index that is within every row it sets the attribute on
    exactly the cells of that column that have content and on no other
    cell; with an index outside [0, column count) on a body that has at
    least one row it raises [WidgetDataError]. *)
Theorem col_class_by_column css_class t :
  col_class css_class None t
  = (Return tt,
     with_body t (row_with_childs (fmap (cell_attr "klass" css_class)) <$> body t))
  /\ (forall col_index,
        Forall (fun row => col_in_bounds col_index row = true) (body t) ->
        col_class css_class (Some col_index) t
        = (Return tt,
           with_body t (row_with_childs
                          (alter (class_if_content css_class) (Z.to_nat col_index))
                        <$> body t)))
  /\ (forall col_index,
        body t <> [] ->
        ~ (0 <= col_index < Z.of_nat (column_count t))%Z ->
        (col_class css_class (Some col_index) t).1 = Raise WidgetDataError).
Proof.
  split_and!.
  - apply col_class_all_run.
  - intros col_index Hall.
    by rewrite col_class_index_run, col_class_row_in_bounds.
  - intros col_index Hne Hout. rewrite col_class_index_run. cbn [fst].
    destruct (body t) as [|row rows] eqn:Hb; [done|].
    simpl. unfold col_class_row at 1.
    rewrite (col_out_of_count col_index t row); [done| |done].
    rewrite Hb. by left.
Qed.
End ColClass.

(** C6 as written fails on a cell without content, which gets the class
    when no column index is given, and on a body without rows, where an
    index out of range raises nothing. *)
Lemma col_class_marks_empty_cell :
  col_class "x" None table_empty_cell
  <> (Return tt, col_class_all_spec "x" table_empty_cell)
  /\ (col_class "x" (Some 5%Z) table_no_head).1 <> Raise WidgetDataError.
Proof.
  split; [|discriminate].
  rewrite col_class_all_run. intros Heq.
  apply (f_equal (fun r => (fun row => (fun c => cell_attrs c !! "klass")
                                         <$> row_childs row) <$> body r.2)) in Heq.
  vm_compute in Heq. discriminate Heq.
Qed.

Lemma col_class_by_column_witness :
  col_class "x" (Some 1%Z) table_3x3
  = (Return tt,
     with_body table_3x3
       (row_with_childs (alter (class_if_content "x") 1) <$> body table_3x3))
  /\ (col_class "x" (Some 5%Z) table_3x3).1 = Raise WidgetDataError.
Proof.
  destruct (col_class_by_column "x" table_3x3) as (_ & Hin & Hout). split.
  - apply (Hin 1%Z). repeat constructor.
  - apply (Hout 5%Z); [discriminate|]. unfold column_count. simpl. lia.
Defined.

(** ** map_row, map_col and map_table *)

Section MapClaims.
Context {V : Type}.
Implicit Types (t : TempyTable V) (row : Tr V) (c : Cell V).
Implicit Types (fn : V -> Exception + V).

Lemma cells_stop_at_error fn pre c post ex :
  Forall (cell_ok fn) pre ->
  (cell_run fn c).1 = Raise ex ->
  traverse (cell_run fn) (pre ++ c :: post)
  = (Raise ex, (cell_after fn <$> pre) ++ cell_after fn c :: post).
Proof. intros Hpre Hc. by apply traverse_fail. Qed.

Lemma map_table_row_ok fn ignore_errors row :
  Forall (cell_ok fn) (row_childs row) ->
  map_table_row fn ignore_errors row
  = (Return tt, row_with_childs (fmap (cell_after fn)) row).
Proof.
  intros Hall. unfold map_table_row. by rewrite traverse_ok.
Qed.

Lemma map_table_row_swallow fn row :
  (map_table_row fn true row).1 = Return tt.
Proof.
  unfold map_table_row.
  by destruct (traverse (cell_run fn) (row_childs row)) as [[[]|ex] cells].
Qed.

Lemma map_col_row_at fn col_index row c :
  (0 <= col_index)%Z ->
  row_childs row !! Z.to_nat col_index = Some c ->
  map_col_row fn col_index row
  = ((cell_run fn c).1,
     row_with_childs (alter (cell_after fn) (Z.to_nat col_index)) row).
Proof.
  intros H0 Hc. unfold map_col_row, col_in_bounds, row_len.
  apply lookup_lt_Some in Hc as Hlt.
  rewrite !bool_decide_eq_true_2 by lia. cbn [andb]. by rewrite Hc.
Qed.

(** Without an index [map_row] and [map_col] hand over to [map_table]
    and do not pass [ignore_errors] on. *)
Lemma map_without_index fn ignore_errors t :
  map_row fn None ignore_errors t = map_table fn true t /\
  map_col fn None ignore_errors t = map_table fn true t.
Proof. split; reflexivity. Qed.

(** C2, as the code has it.  The [try] encloses the whole loop, so an
    error of the transform ends the loop it occurs in.  With
    [ignore_errors=True] the error is swallowed: [map_row] and [map_col]
    with an index leave the failing cell's successors in the row or the
    column unprocessed; [map_table] leaves the rest of that row
    unprocessed and goes on with the next row, treating each row as
    [map_row] does.  With [ignore_errors=False] the first error
    propagates from [map_table] and from [map_row] and [map_col] with an
    index.  In all cases the cells processed before the error keep their
    new content. *)
Theorem map_stops_at_first_error fn t :
  (forall ignore_errors B a pre c post B' ex,
     body t = B ++ mkTr a (pre ++ c :: post) :: B' ->
     Forall (cell_ok fn) pre ->
     (cell_run fn c).1 = Raise ex ->
     map_row fn (Some (Z.of_nat (length B))) ignore_errors t
     = (if ignore_errors then Return tt else Raise ex,
        with_body t
          (B ++ mkTr a ((cell_after fn <$> pre) ++ cell_after fn c :: post) :: B')))
  /\ (forall ignore_errors col_index pre row post c ex,
        (0 <= col_index)%Z ->
        body t = pre ++ row :: post ->
        Forall (fun row => exists c, row_childs row !! Z.to_nat col_index = Some c
                                     /\ cell_ok fn c) pre ->
        row_childs row !! Z.to_nat col_index = Some c ->
        (cell_run fn c).1 = Raise ex ->
        map_col fn (Some col_index) ignore_errors t
        = (if ignore_errors then Return tt else Raise ex,
           with_body t
             ((row_with_childs (alter (cell_after fn) (Z.to_nat col_index)) <$> pre)
              ++ row_with_childs (alter (cell_after fn) (Z.to_nat col_index)) row
              :: post)))
  /\ ((map_table fn true t).1 = Return tt
      /\ forall i row,
           body t !! i = Some row ->
           body (map_table fn true t).2 !! i
           = body (map_row fn (Some (Z.of_nat i)) true t).2 !! i)
  /\ (forall pre a cpre c cpost post ex,
        body t = pre ++ mkTr a (cpre ++ c :: cpost) :: post ->
        Forall (fun row => Forall (cell_ok fn) (row_childs row)) pre ->
        Forall (cell_ok fn) cpre ->
        (cell_run fn c).1 = Raise ex ->
        map_table fn false t
        = (Raise ex,
           with_body t
             ((row_with_childs (fmap (cell_after fn)) <$> pre)
              ++ mkTr a ((cell_after fn <$> cpre) ++ cell_after fn c :: cpost)
              :: post))).
Proof.
  split_and!.
  - intros ignore_errors B a pre c post B' ex Hb Hpre Hc.
    rewrite (map_row_run _ _ _ _ _ _ _ Hb).
    by rewrite (cells_stop_at_error _ _ _ _ _ Hpre Hc).
  - intros ignore_errors col_index pre row post c ex H0 Hb Hpre Hrow Hc.
    rewrite map_col_run, Hb.
    rewrite (traverse_fail _ pre row post ex).
    + rewrite (map_col_row_at _ _ _ c) by done. cbn [fst snd]. do 3 f_equal.
      apply Forall_fmap_ext_1. eapply Forall_impl; [exact Hpre|].
      intros r (c' & Hc' & _). by rewrite (map_col_row_at _ _ _ c').
    + eapply Forall_impl; [exact Hpre|].
      intros r (c' & Hc' & Hok). by rewrite (map_col_row_at _ _ _ c').
    + by rewrite (map_col_row_at _ _ _ c).
  - rewrite map_table_run.
    rewrite traverse_ok by (apply Forall_forall; intros; apply map_table_row_swallow).
    done.
  - intros i row Hi. rewrite map_table_run.
    rewrite traverse_ok by (apply Forall_forall; intros; apply map_table_row_swallow).
    cbn [snd]. rewrite body_with_body, list_lookup_fmap, Hi.
    apply list_elem_of_split_length in Hi as (B & B' & Hb & ->).
    destruct row as [a cs]. rewrite (map_row_run _ _ _ _ _ _ _ Hb).
    cbn [snd]. rewrite body_with_body, list_lookup_middle by done.
    unfold map_table_row. cbn.
    by destruct (traverse (cell_run fn) cs).
  - intros pre a cpre c cpost post ex Hb Hpre Hcpre Hc.
    rewrite map_table_run, Hb.
    assert (map_table_row fn false (mkTr a (cpre ++ c :: cpost))
            = (Raise ex, mkTr a ((cell_after fn <$> cpre) ++ cell_after fn c :: cpost)))
      as Hrow.
    { unfold map_table_row. cbn [row_childs row_attrs].
      by rewrite (cells_stop_at_error _ _ _ _ _ Hcpre Hc). }
    rewrite (traverse_fail _ pre _ post ex).
    + rewrite Hrow. cbn [fst snd]. do 3 f_equal.
      apply Forall_fmap_ext_1. eapply Forall_impl; [exact Hpre|].
      intros r Hr. by rewrite map_table_row_ok.
    + eapply Forall_impl; [exact Hpre|].
      intros r Hr. by rewrite map_table_row_ok.
    + by rewrite Hrow.
Qed.
End MapClaims.

(** C2 as written fails: under [ignore_errors=True] the cells behind a
    failing cell are not processed, in the row for [map_row] and
    [map_table], in the column for [map_col]. *)
Lemma map_row_skips_rest_after_error :
  map_row bang (Some 0%Z) true table_bad
  <> (Return tt, map_row_spec bang 0 table_bad)
  /\ map_col bang (Some 1%Z) true table_bad
     <> (Return tt, map_col_spec bang 1 table_bad)
  /\ map_table bang true table_bad
     <> (Return tt, map_table_spec bang table_bad).
Proof. split_and!; vm_compute; discriminate. Qed.

Lemma map_stops_at_first_error_witness :
  map_row bang (Some 0%Z) true table_bad
  = (Return tt,
     with_body table_bad
       (mkTr ∅ [text_cell "a!"; text_cell "bad"; text_cell "c"]
        :: drop 1 (body table_bad)))
  /\ map_col bang (Some 1%Z) false table_bad
     = (Raise (UserError "bad"), table_bad)
  /\ body (map_table bang true table_bad).2 !! 0
     = body (map_row bang (Some 0%Z) true table_bad).2 !! 0
  /\ map_table bang false table_bad
     = (Raise (UserError "bad"),
        with_body table_bad
          (mkTr ∅ [text_cell "a!"; text_cell "bad"; text_cell "c"]
           :: drop 1 (body table_bad))).
Proof.
  destruct (map_stops_at_first_error bang table_bad)
    as (Hrow & Hcol & [_ Htable] & Hprop).
  split_and!.
  - apply (Hrow true [] ∅ [text_cell "a"] (text_cell "bad") [text_cell "c"]
             (drop 1 (body table_bad)) (UserError "bad"));
      [reflexivity | repeat constructor | reflexivity].
  - apply (Hcol false 1%Z [] (mkTr ∅ [text_cell "a"; text_cell "bad"; text_cell "c"])
             (drop 1 (body table_bad)) (text_cell "bad") (UserError "bad"));
      [lia | reflexivity | constructor | reflexivity | reflexivity].
  - apply (Htable 0 (mkTr ∅ [text_cell "a"; text_cell "bad"; text_cell "c"])).
    reflexivity.
  - apply (Hprop [] ∅ [text_cell "a"] (text_cell "bad") [text_cell "c"]
             (drop 1 (body table_bad)) (UserError "bad"));
      [reflexivity | constructor | repeat constructor | reflexivity].
Defined.

(** ** make_header and make_footer *)

Section Parts.
Context {V : Type}.
Implicit Types (t : TempyTable V) (data : list (option V)).

Lemma alter_child_last t f (p : Part V) aft :
  after t = aft ++ [p] ->
  alter_child (length (before t) + S (length aft)) f t
  = mkTable (before t) (body t) (aft ++ [f p]) (header t) (footer t).
Proof.
  intros Ha. unfold alter_child.
  rewrite decide_False by lia. rewrite decide_False by lia.
  replace (length (before t) + S (length aft) - S (length (before t)))
    with (length aft) by lia.
  by rewrite Ha, (alter_middle f aft p []).
Qed.

Lemma table_childs_length t :
  length (table_childs t) = length (before t) + S (length (after t)).
Proof. unfold table_childs. by rewrite length_app. Qed.

Lemma make_header_run data t :
  make_header data t
  = (Return tt,
     mkTable (before t) (body t) (after t ++ [Thead [part_row Th data]])
             (Some (default (length (table_childs t)) (header t))) (footer t)).
Proof.
  unfold make_header, _make_table_part.
  rewrite (run_bind_Return _ _ t (Thead, Th) t) by reflexivity.
  rewrite (run_bind_Return _ _ t t t) by reflexivity.
  rewrite (run_bind_Return _ _ t tt (append_child (Thead []) t)) by reflexivity.
  rewrite table_childs_length.
  destruct (header t) as [i|] eqn:Hh.
  - rewrite (run_bind_Return _ _ _ tt (append_child (Thead []) t)).
    2:{ unfold hasattr. cbn. by rewrite Hh. }
    unfold modify. f_equal.
    rewrite (alter_child_last (append_child (Thead []) t) _ (Thead []) (after t))
      by done.
    cbn. by rewrite Hh.
  - rewrite (run_bind_Return _ _ _ tt
      (setattr "header" (length (before t) + S (length (after t)))
               (append_child (Thead []) t))).
    2:{ unfold hasattr. cbn. by rewrite Hh. }
    unfold modify. f_equal.
    by rewrite (alter_child_last (setattr "header" _ (append_child (Thead []) t))
                  _ (Thead []) (after t)).
Qed.

Lemma make_footer_run data t :
  make_footer data t
  = (Return tt,
     mkTable (before t) (body t) (after t ++ [Tfoot [part_row Td data]])
             (header t) (Some (default (length (table_childs t)) (footer t)))).
Proof.
  unfold make_footer, _make_table_part.
  rewrite (run_bind_Return _ _ t (Tfoot, Td) t) by reflexivity.
  rewrite (run_bind_Return _ _ t t t) by reflexivity.
  rewrite (run_bind_Return _ _ t tt (append_child (Tfoot []) t)) by reflexivity.
  rewrite table_childs_length.
  destruct (footer t) as [i|] eqn:Hf.
  - rewrite (run_bind_Return _ _ _ tt (append_child (Tfoot []) t)).
    2:{ unfold hasattr. cbn. by rewrite Hf. }
    unfold modify. f_equal.
    rewrite (alter_child_last (append_child (Tfoot []) t) _ (Tfoot []) (after t))
      by done.
    cbn. by rewrite Hf.
  - rewrite (run_bind_Return _ _ _ tt
      (setattr "footer" (length (before t) + S (length (after t)))
               (append_child (Tfoot []) t))).
    2:{ unfold hasattr. cbn. by rewrite Hf. }
    unfold modify. f_equal.
    by rewrite (alter_child_last (setattr "footer" _ (append_child (Tfoot []) t))
                  _ (Tfoot []) (after t)).
Qed.

(** C3, as the code has it: [make_header(h1)] followed by [make_header(h2)]
    appends two header containers to the children of the table, the one
    with the values of [h1] and then the one with the values of [h2]; the
    attribute [header] stays bound to the container it was bound to first;
    the body is untouched.  The same holds for [make_footer] with footer
    containers. *)
Theorem make_header_twice_appends h1 h2 t :
  (exists t2,
     (make_header h1 ;; make_header h2) t = (Return tt, t2) /\
     table_childs t2
     = table_childs t ++ [Thead [part_row Th h1]; Thead [part_row Th h2]] /\
     length (theads t2) = 2 + length (theads t) /\
     header t2 = Some (default (length (table_childs t)) (header t)) /\
     body t2 = body t)
  /\ (exists t2,
        (make_footer h1 ;; make_footer h2) t = (Return tt, t2) /\
        table_childs t2
        = table_childs t ++ [Tfoot [part_row Td h1]; Tfoot [part_row Td h2]] /\
        length (tfoots t2) = 2 + length (tfoots t) /\
        footer t2 = Some (default (length (table_childs t)) (footer t)) /\
        body t2 = body t).
Proof.
  split.
  - eexists. split.
    { erewrite run_bind_Return by apply make_header_run. apply make_header_run. }
    cbn [header body]. split_and!; [| |done|done].
    + unfold table_childs. cbn [before body after]. by rewrite <- !app_assoc.
    + unfold theads, table_childs. cbn [before body after].
      rewrite !List.filter_app. cbn. rewrite !List.filter_app, !length_app. cbn. lia.
  - eexists. split.
    { erewrite run_bind_Return by apply make_footer_run. apply make_footer_run. }
    cbn [footer body]. split_and!; [| |done|done].
    + unfold table_childs. cbn [before body after]. by rewrite <- !app_assoc.
    + unfold tfoots, table_childs. cbn [before body after].
      rewrite !List.filter_app. cbn. rewrite !List.filter_app, !length_app. cbn. lia.
Qed.
End Parts.

(** C3 as written fails: after two calls of [make_header] the table has
    two header containers, not the single one with the second values. *)
Lemma make_header_twice_two_containers :
  theads ((make_header [Some "A"; Some "B"] ;; make_header [Some "C"; Some "D"])
            table_no_head).2
  <> [Thead [part_row Th [Some "C"; Some "D"]]].
Proof. vm_compute. discriminate. Qed.

(** ** TempyList *)

Section ListFacts.
Import TempyList.

Lemma new_root fuel typ struct tree :
  __new__ fuel typ struct = Return tree ->
  exists t struct' childs,
    resolve_typ typ struct = Return (t, struct') /\ tree = Elem t childs.
Proof.
  destruct fuel as [|fuel]; simpl; [done|].
  destruct (resolve_typ typ struct) as [[t struct']|ex]; [|done].
  unfold __init__.
  destruct (populate _ t struct' []) as [[[]|ex] childs]; [|done].
  intros [= <-]. eauto.
Qed.

Lemma depth_pos struct : 0 < depth struct.
Proof. destruct struct; simpl; lia. Qed.

(** *** The recursion depth is enough *)

Lemma zip_longest_nil_r xs : zip_longest xs [] = (fun x => (x, PNone)) <$> xs.
Proof. induction xs as [|x xs IH]; simpl; [done|]. by rewrite IH. Qed.

Lemma depth_value d k v : (k, v) ∈ d -> depth v < depth (PDict d).
Proof.
  intros Hin. cbn [depth]. apply Nat.lt_succ_r, max_list_elem_of_le.
  apply list_elem_of_fmap. by exists (k, v).
Qed.

Lemma dict_del_elem_of d k kv : kv ∈ dict_del d k -> kv ∈ d.
Proof.
  induction d as [|[k' v'] d IH]; simpl; [done|].
  case_decide; [by right|].
  intros [->|Hin]%elem_of_cons; [by left|right; auto].
Qed.

Lemma dict_set_values (P : PyVal -> Prop) d k v :
  P v -> Forall (fun kv => P kv.2) d -> Forall (fun kv => P kv.2) (dict_set d k v).
Proof.
  intros Hv. induction 1 as [|[k' v'] d Hkv Hd IH]; simpl.
  - by repeat constructor.
  - case_decide; constructor; done.
Qed.

Lemma dict_values (P : PyVal -> Prop) pairs :
  Forall (fun kv => P kv.2) pairs -> Forall (fun kv => P kv.2) (dict pairs).
Proof.
  unfold dict.
  generalize (@nil (Key * PyVal)) (Forall_nil_2 (fun kv : Key * PyVal => P kv.2)).
  intros d Hd Hpairs. revert d Hd.
  induction Hpairs as [|[k v] pairs Hkv _ IH]; intros d Hd; simpl; [done|].
  apply IH. by apply dict_set_values.
Qed.

Lemma zip_longest_None_values xs :
  Forall (fun kv => kv.2 = PNone) (zip_longest xs [PNone]).
Proof.
  destruct xs as [|x xs]; simpl; [by repeat constructor|].
  constructor; [done|]. rewrite zip_longest_nil_r. by apply Forall_fmap, Forall_true.
Qed.

(** The methods only call the factory on the true values of the mapping. *)
Lemma process_li_ext rec1 rec2 _typ d :
  (forall k v, (k, v) ∈ d -> py_bool v = true ->
               rec1 (PTag _typ) v = rec2 (PTag _typ) v) ->
  forall childs,
    __process_li_struct rec1 _typ d childs = __process_li_struct rec2 _typ d childs.
Proof.
  intros Hrec. unfold __process_li_struct. apply for_each_ext.
  intros [k v] Hin childs. destruct (py_bool v) eqn:Hv; [|done].
  by rewrite (Hrec k v).
Qed.

Lemma populate_ext rec1 rec2 _typ struct :
  (forall d k v, struct = PDict d -> (k, v) ∈ d -> py_bool v = true ->
                 rec1 (PTag _typ) v = rec2 (PTag _typ) v) ->
  forall childs,
    populate rec1 _typ struct childs = populate rec2 _typ struct childs.
Proof.
  intros Hrec childs. unfold populate.
  destruct struct as [| | |l|d]; try done.
  - case_decide; [done|]. apply process_li_ext. intros k v Hin Hv.
    pose proof (dict_values (fun v => v = PNone) _ (zip_longest_None_values l)) as Hall.
    rewrite Forall_forall in Hall. specialize (Hall _ Hin). cbn in Hall.
    by rewrite Hall in Hv.
  - case_decide; [done|]. apply process_li_ext. intros k v. by apply Hrec.
Qed.

Lemma resolve_typ_struct typ struct t struct' :
  resolve_typ typ struct = Return (t, struct') ->
  forall d' kv, struct' = PDict d' -> kv ∈ d' -> exists d, struct = PDict d /\ kv ∈ d.
Proof.
  unfold resolve_typ, pop_typ. intros Hres d' kv -> Hin.
  destruct struct as [| | | |d].
  1-4: destruct (class_of typ); simplify_eq.
  destruct (dict_get d (Some "_typ")) as [v|].
  - destruct (class_of v); simplify_eq. eauto using dict_del_elem_of.
  - destruct (class_of typ); simplify_eq. eauto.
Qed.

(** Any depth of recursion that is at least the nesting depth of the
    struct gives the list that [TempyList] gives. *)
Lemma new_fuel_enough fuel : forall fuel' typ struct,
  depth struct <= fuel -> depth struct <= fuel' ->
  __new__ fuel typ struct = __new__ fuel' typ struct.
Proof.
  induction fuel as [|fuel IH]; intros fuel' typ struct Hd Hd'.
  { pose proof (depth_pos struct). lia. }
  destruct fuel' as [|fuel']; [pose proof (depth_pos struct); lia|].
  cbn [__new__].
  destruct (resolve_typ typ struct) as [[t struct']|ex] eqn:Hres; [|done].
  unfold __init__.
  rewrite (populate_ext (__new__ fuel) (__new__ fuel')); [done|].
  intros d' k v -> Hin _.
  destruct (resolve_typ_struct _ _ _ _ Hres d' (k, v) eq_refl Hin) as (d & -> & Hin').
  apply depth_value in Hin'. apply IH; lia.
Qed.

Lemma TempyList_fuel_enough fuel typ struct :
  depth struct <= fuel -> __new__ fuel typ struct = TempyList typ struct.
Proof. intros Hd. by apply new_fuel_enough. Qed.

(** C4, as the code has it: the kind of the list is taken first from the
    reserved key ['_typ'] when the spec is a mapping that has it, whatever
    the explicit kind argument is, and the key is taken out of the mapping;
    only a spec without that key leaves the choice to the explicit
    argument.  The kind is unordered when the value so chosen is [None]:
    with no such key and no kind argument, and also with the key present
    and [None] as its value, whatever the kind argument is.  The kind
    settled on is the tag of the root of the list that is built.
    [class_of] reads a kind off a value: a tag class is itself, a name is
    looked up, [None] is [Ul]. *)
Theorem typ_key_before_explicit_kind typ struct :
  (forall d v t,
     struct = PDict d -> dict_get d (Some "_typ") = Some v ->
     class_of v = Return t ->
     resolve_typ typ struct = Return (t, PDict (dict_del d (Some "_typ"))) /\
     forall tree, TempyList typ struct = Return tree ->
                  kind_of_list (Return tree) = Some t)
  /\ (forall t,
        (forall d, struct = PDict d -> dict_get d (Some "_typ") = None) ->
        class_of typ = Return t ->
        resolve_typ typ struct = Return (t, struct) /\
        forall tree, TempyList typ struct = Return tree ->
                     kind_of_list (Return tree) = Some t)
  /\ ((forall d, struct = PDict d -> dict_get d (Some "_typ") = None) ->
      typ = PNone ->
      resolve_typ typ struct = Return (Ul, struct) /\
      forall tree, TempyList typ struct = Return tree ->
                   kind_of_list (Return tree) = Some Ul)
  /\ (forall d,
        struct = PDict d -> dict_get d (Some "_typ") = Some PNone ->
        resolve_typ typ struct = Return (Ul, PDict (dict_del d (Some "_typ"))) /\
        forall tree, TempyList typ struct = Return tree ->
                     kind_of_list (Return tree) = Some Ul).
Proof.
  assert (forall t struct',
            resolve_typ typ struct = Return (t, struct') ->
            forall tree, TempyList typ struct = Return tree ->
                         kind_of_list (Return tree) = Some t) as Hroot.
  { intros t struct' Hres tree (t0 & s0 & childs & Hres' & ->)%new_root.
    cbn. congruence. }
  assert (forall t, (forall d, struct = PDict d -> dict_get d (Some "_typ") = None) ->
                    class_of typ = Return t ->
                    resolve_typ typ struct = Return (t, struct)) as Hnokey.
  { intros t Hno Hcls. unfold resolve_typ, pop_typ.
    destruct struct as [| | | |d]; try by rewrite Hcls.
    by rewrite (Hno d eq_refl), Hcls. }
  assert (forall d v t,
            struct = PDict d -> dict_get d (Some "_typ") = Some v ->
            class_of v = Return t ->
            resolve_typ typ struct
            = Return (t, PDict (dict_del d (Some "_typ")))) as Hkey.
  { intros d v t -> Hget Hcls. unfold resolve_typ, pop_typ.
    by rewrite Hget, Hcls. }
  split_and!.
  - intros d v t Hd Hget Hcls. eauto.
  - intros t Hno Hcls. eauto.
  - intros Hno ->. eauto.
  - intros d Hd Hget. pose proof (Hkey d PNone Ul Hd Hget eq_refl). eauto.
Qed.

(** *** Flat sequences *)





End ListFacts.

(** C4 as written fails: an explicit [Ul] loses to a ['_typ'] key. *)
Lemma typ_key_overrides_explicit_kind :
  TempyList.kind_of_list
    (TempyList.TempyList (TempyList.PTag TempyList.Ul)
       (TempyList.PDict [(Some "_typ", TempyList.PStr "Ol");
                         (Some "a", TempyList.PNone)]))
  <> Some TempyList.Ul.
Proof. vm_compute. discriminate. Qed.


Lemma typ_key_before_explicit_kind_witness :
  TempyList.kind_of_list
    (TempyList.TempyList (TempyList.PTag TempyList.Ul)
       (TempyList.PDict [(Some "_typ", TempyList.PStr "Ol");
                         (Some "a", TempyList.PNone)]))
  = Some TempyList.Ol
  /\ TempyList.kind_of_list
       (TempyList.TempyList (TempyList.PStr "Ol") (TempyList.PList [Some "x"]))
     = Some TempyList.Ol
  /\ TempyList.kind_of_list
       (TempyList.TempyList TempyList.PNone (TempyList.PList [Some "x"]))
     = Some TempyList.Ul
  /\ TempyList.kind_of_list
       (TempyList.TempyList (TempyList.PStr "Ol")
          (TempyList.PDict [(Some "_typ", TempyList.PNone);
                            (Some "a", TempyList.PNone)]))
     = Some TempyList.Ul.
Proof.
  split_and!.
  - destruct (typ_key_before_explicit_kind
                (TempyList.PTag TempyList.Ul)
                (TempyList.PDict [(Some "_typ", TempyList.PStr "Ol");
                                  (Some "a", TempyList.PNone)]))
      as (Hkey & _ & _ & _).
    destruct (Hkey _ (TempyList.PStr "Ol") TempyList.Ol eq_refl eq_refl eq_refl)
      as [_ Htree].
    exact (Htree (TempyList.Elem TempyList.Ol [TempyList.li_item "a"]) eq_refl).
  - destruct (typ_key_before_explicit_kind
                (TempyList.PStr "Ol") (TempyList.PList [Some "x"]))
      as (_ & Harg & _ & _).
    destruct (Harg TempyList.Ol) as [_ Htree];
      [intros d Hd; discriminate Hd | reflexivity |].
    exact (Htree (TempyList.Elem TempyList.Ol [TempyList.li_item "x"]) eq_refl).
  - destruct (typ_key_before_explicit_kind
                TempyList.PNone (TempyList.PList [Some "x"]))
      as (_ & _ & Hdef & _).
    destruct Hdef as [_ Htree];
      [intros d Hd; discriminate Hd | reflexivity |].
    exact (Htree (TempyList.Elem TempyList.Ul [TempyList.li_item "x"]) eq_refl).
  - destruct (typ_key_before_explicit_kind
                (TempyList.PStr "Ol")
                (TempyList.PDict [(Some "_typ", TempyList.PNone);
                                  (Some "a", TempyList.PNone)]))
      as (_ & _ & _ & Hnone).
    destruct (Hnone _ eq_refl eq_refl) as [_ Htree].
    exact (Htree (TempyList.Elem TempyList.Ul [TempyList.li_item "a"]) eq_refl).
Defined.


(** ** More on populate *)

Section PopulateMore.
Context {V : Type}.
Implicit Types (t : TempyTable V) (data : list (list (option V))).

Lemma built_rows_nonempty normalize m data :
  Forall (fun d_row => d_row <> []) data ->
  built_rows (V:=V) normalize m data
  = (Return tt,
     (fun d_row => row_of (if normalize then ljust d_row m None else d_row)) <$> data).
Proof.
  induction 1 as [|d_row data Hne _ IH]; simpl; [done|].
  destruct d_row as [|d_cell d_row]; [done|]. by rewrite IH.
Qed.

Lemma built_rows_empty_row normalize m pre post :
  Forall (fun d_row => d_row <> []) pre ->
  built_rows (V:=V) normalize m (pre ++ [] :: post)
  = (Raise AttributeError,
     (fun d_row => row_of (if normalize then ljust d_row m None else d_row)) <$> pre).
Proof.
  induction 1 as [|d_row pre Hne _ IH]; simpl; [done|].
  destruct d_row as [|d_cell d_row]; [done|]. by rewrite IH.
Qed.

Lemma ljust_length {A} (l : list A) n fill :
  length l <= n -> length (ljust l n fill) = n.
Proof. intros Hle. unfold ljust. rewrite length_app, length_replicate. lia. Qed.

(** X1: whatever the data and the flags, and whether it returns or
    raises, [populate] changes nothing but the rows of the body: the other
    children of the table and the attributes [header] and [footer] stay as
    they were. *)
Theorem populate_keeps_parts (data : option (list (list (option V))))
    resize_x normalize t :
  let t' := (populate data resize_x normalize t).2 in
  before t' = before t /\ after t' = after t /\
  header t' = header t /\ footer t' = footer t.
Proof.
  destruct data as [data|]; [|done]. destruct resize_x.
  - rewrite populate_resize. by destruct data.
  - rewrite populate_fixed_width_run. by destruct data as [|[|d_cell d_row] data].
Qed.

(** X2: with [resize_x=True] and [normalize=True], data that have at
    least one row and no empty row are accepted, and every row of the new
    body has as many cells as the longest data row: row [i] holds the
    values of data row [i] followed by cells without content. *)
Theorem populate_normalize_pads data t :
  data <> [] ->
  Forall (fun d_row => d_row <> []) data ->
  let width := max_list (length <$> data) in
  let t' := with_body t ((fun d_row => row_of (ljust d_row width None)) <$> data) in
  populate (Some data) true true t = (Return tt, t') /\
  Forall (fun row => row_len row = width) (body t').
Proof.
  intros Hne Hrows width t'. split.
  - rewrite populate_resize. destruct data as [|d_row data]; [done|].
    by rewrite built_rows_nonempty.
  - subst t'. rewrite body_with_body. apply Forall_fmap, Forall_forall.
    intros d_row Hin. unfold row_len, row_of. cbn.
    rewrite length_fmap. apply ljust_length, max_list_elem_of_le.
    apply list_elem_of_fmap. eauto.
Qed.

(** X3: with [resize_x=True] and [normalize=False] the rows keep the
    lengths of the data rows: the new body has one row per data row, with
    one cell per value of that row. *)
Theorem populate_ragged data t :
  data <> [] ->
  Forall (fun d_row => d_row <> []) data ->
  populate (Some data) true false t = (Return tt, with_body t (row_of <$> data)).
Proof.
  intros Hne Hrows. rewrite populate_resize.
  destruct data as [|d_row data]; [done|]. by rewrite built_rows_nonempty.
Qed.

(** X4: an empty row among the data makes [populate] raise
    [AttributeError] in the middle of the rebuild: the old body is gone and
    the new one holds the rows for the data rows before the empty one. *)
Theorem populate_empty_row_partial normalize pre post t :
  Forall (fun d_row => d_row <> []) pre ->
  let data := pre ++ [] :: post in
  populate (Some data) true normalize t
  = (Raise AttributeError,
     with_body t
       ((fun d_row => row_of (if normalize
                              then ljust d_row (max_list (length <$> data)) None
                              else d_row)) <$> pre)).
Proof.
  intros Hpre data. rewrite populate_resize. subst data.
  destruct (pre ++ [] :: post) as [|d_row data] eqn:Hd.
  - by destruct pre.
  - rewrite <- Hd. by rewrite built_rows_empty_row.
Qed.

(** X5: with [resize_x=False] no call of [populate] returns: the body is
    emptied, then no data raise [ValueError] and any data raise
    [AttributeError], leaving no row, or one row without cells. *)
Theorem populate_fixed_width_always_raises data normalize t :
  let r := populate (Some data) false normalize t in
  (data = [] /\ r.1 = Raise ValueError \/ data <> [] /\ r.1 = Raise AttributeError)
  /\ (body r.2 = [] \/ body r.2 = [new_Tr]).
Proof.
  cbn zeta. rewrite populate_fixed_width_run.
  destruct data as [|[|d_cell d_row] data]; cbn; eauto.
Qed.
End PopulateMore.

Lemma populate_normalize_pads_witness :
  populate (Some [[Some "a"]; [Some "b"; Some "c"]]) true true table_1x1
  = (Return tt,
     with_body table_1x1 [row_of [Some "a"; None]; row_of [Some "b"; Some "c"]])
  /\ Forall (fun row => row_len row = 2)
       [row_of [Some "a"; None]; row_of [Some "b"; Some "c"]].
Proof.
  apply (populate_normalize_pads [[Some "a"]; [Some "b"; Some "c"]] table_1x1).
  - discriminate.
  - repeat constructor; discriminate.
Defined.

Lemma populate_ragged_witness :
  populate (Some [[Some "a"]; [Some "b"; Some "c"]]) true false table_1x1
  = (Return tt,
     with_body table_1x1 [row_of [Some "a"]; row_of [Some "b"; Some "c"]]).
Proof.
  apply (populate_ragged [[Some "a"]; [Some "b"; Some "c"]] table_1x1).
  - discriminate.
  - repeat constructor; discriminate.
Defined.

Lemma populate_empty_row_partial_witness :
  populate (Some [[Some "a"]; []; [Some "b"]]) true true table_1x1
  = (Raise AttributeError, with_body table_1x1 [row_of [Some "a"]]).
Proof.
  apply (populate_empty_row_partial true [[Some "a"]] [[Some "b"]] table_1x1).
  repeat constructor; discriminate.
Defined.

(** ** add_row, pop_row, pop_cell and row_class *)

Section Rows.
Context {V : Type}.
Implicit Types (t : TempyTable V) (row : Tr V) (B : list (Tr V)).

Lemma add_row_run (row_data : list (option V)) t :
  add_row row_data true t = (Return tt, with_body t (body t ++ [row_of row_data])).
Proof. reflexivity. Qed.

(** X6: [add_row] with [resize_x=False] accepts a row exactly when the
    body has no row yet or the row is no longer than the widest row of the
    body; an accepted row is appended after the rows that are there, a
    refused one raises [WidgetDataError] and leaves the table as it was. *)
Theorem add_row_fixed_width (row_data : list (option V)) t :
  (body t = [] \/ length row_data <= column_count t ->
   add_row row_data false t
   = (Return tt, with_body t (body t ++ [row_of row_data])))
  /\ (body t <> [] /\ column_count t < length row_data ->
      add_row row_data false t = (Raise WidgetDataError, t)).
Proof.
  split.
  - intros Hok. unfold add_row. cbn [negb].
    erewrite run_bind_Return; [reflexivity|].
    unfold _check_row_size.
    rewrite (run_bind_Return _ _ t (body t) t) by reflexivity.
    destruct Hok as [Hb|Hle].
    + by rewrite Hb.
    + unfold column_count in Hle.
      rewrite (bool_decide_eq_false_2 (_ < _)) by lia. by rewrite andb_false_r.
  - intros [Hne Hlt]. by apply add_row_fixed_width_DataError.
Qed.

Lemma py_index_last (len : nat) :
  py_index (Z.of_nat (S len) - 1) (S len) = Some len.
Proof.
  unfold py_index. rewrite bool_decide_eq_true_2 by lia. f_equal. lia.
Qed.

Lemma body_pop_last t B row :
  body t = B ++ [row] ->
  body_pop (Z.of_nat (length (body t)) - 1) t = (Return row, with_body t B).
Proof.
  intros Hb. unfold body_pop.
  rewrite (run_bind_Return _ _ t (body t) t) by reflexivity.
  rewrite Hb, length_app, Nat.add_1_r, py_index_last.
  rewrite list_lookup_middle by done.
  unfold bind, modify, ret. f_equal. rewrite (set_body_eq _ _ _ Hb). f_equal.
  by rewrite (delete_middle B [] row), app_nil_r.
Qed.

Lemma first_childs_values (vs : list V) :
  first_childs ((fun v => cell_of (Some v)) <$> vs) = Return vs.
Proof. induction vs as [|v vs IH]; cbn; [done|]. cbn in IH. by rewrite IH. Qed.

Lemma first_childs_empty_cell (cells : list (Cell V)) c :
  c ∈ cells -> cell_childs c = [] -> first_childs cells = Raise IndexError.
Proof.
  intros Hin Hc. induction cells as [|c' cells IH]; [by apply elem_of_nil in Hin|].
  cbn. unfold first_child.
  apply elem_of_cons in Hin as [<-|Hin]; [by rewrite Hc|].
  destruct (cell_childs c'); [done|]. by rewrite IH.
Qed.

Lemma pop_row_last tags t B row :
  body t = B ++ [row] ->
  pop_row None tags t
  = if tags then (Return (inl row), with_body t B)
    else match first_childs (row_childs row) with
         | Return vs => (Return (inr vs), with_body t B)
         | Raise ex => (Raise ex, with_body t B)
         end.
Proof.
  intros Hb. unfold pop_row.
  rewrite (run_bind_Return _ _ t (body t) t) by reflexivity. cbn [default].
  rewrite (run_bind_Return _ _ _ _ _ (body_pop_last _ _ _ Hb)).
  destruct tags; [done|]. unfold bind, of_outcome.
  by destruct (first_childs (row_childs row)).
Qed.

(** X7: a row of values added with [add_row] comes back from [pop_row]:
    the call returns the values in order and the table is as before the
    row was added. *)
Theorem add_row_pop_row (vs : list V) t :
  (add_row (Some <$> vs) true ;; pop_row None false) t = (Return (inr vs), t).
Proof.
  rewrite (run_bind_Return _ _ _ _ _ (add_row_run _ _)).
  rewrite (pop_row_last false _ (body t) (row_of (Some <$> vs))) by done.
  unfold row_of. cbn [row_childs]. rewrite <- list_fmap_compose.
  change (cell_of ∘ Some) with (fun v : V => cell_of (Some v)).
  rewrite first_childs_values. by rewrite with_body_with_body, with_body_id.
Qed.

(** X8: [pop_row] takes the row out before it reads the values, so on a
    last row that has a cell without content the default call raises
    [IndexError] and the row is lost; with [tags=True] the same row is
    returned as a node. *)
Theorem pop_row_empty_cell_loses_row t B row c :
  body t = B ++ [row] ->
  c ∈ row_childs row -> cell_childs c = [] ->
  pop_row None false t = (Raise IndexError, with_body t B) /\
  pop_row None true t = (Return (inl row), with_body t B).
Proof.
  intros Hb Hin Hc. rewrite !(pop_row_last _ _ _ _ Hb).
  by rewrite (first_childs_empty_cell _ _ Hin Hc).
Qed.

(** X9: [pop_cell] with no position takes the last cell of the last row:
    after [add_row] with a row that ends in a value, it returns that value
    and leaves the new row with the cells before it. *)
Theorem add_row_pop_cell (ds : list (option V)) (v : V) t :
  (add_row (ds ++ [Some v]) true ;; pop_cell None None false) t
  = (Return (inr v), with_body t (body t ++ [row_of ds])).
Proof.
  rewrite (run_bind_Return _ _ _ _ _ (add_row_run _ _)).
  set (t1 := with_body t _).
  assert (body t1 = body t ++ [mkTr ∅ ((cell_of <$> ds) ++ [cell_of (Some v)])]) as Hb.
  { subst t1. rewrite body_with_body. unfold row_of. by rewrite fmap_app. }
  assert (body_getitem (Z.of_nat (length (body t1)) - 1) t1
          = (Return (length (body t)), t1)) as Hget.
  { unfold body_getitem.
    rewrite (run_bind_Return _ _ t1 (body t1) t1) by reflexivity.
    by rewrite Hb, length_app, Nat.add_1_r, py_index_last. }
  unfold pop_cell.
  rewrite (run_bind_Return _ _ t1 (body t1) t1) by reflexivity. cbn [default].
  erewrite run_bind_Return; last first.
  { rewrite (run_bind_Return _ _ _ _ _ Hget).
    rewrite (run_bind_Return _ _ _ _ _ (row_at_middle _ _ _ _ Hb)). reflexivity. }
  rewrite (run_bind_Return _ _ _ _ _ Hget).
  erewrite run_bind_Return; last first.
  { unfold row_pop.
    rewrite (run_bind_Return _ _ _ _ _ (row_at_middle _ _ _ _ Hb)).
    unfold row_len. cbn [row_childs]. rewrite length_app, Nat.add_1_r, py_index_last.
    rewrite length_fmap, <- (length_fmap cell_of ds), list_lookup_middle by done.
    rewrite (run_bind_Return _ _ _ _ _ (alter_row_middle _ _ _ _ _ Hb)).
    reflexivity. }
  cbn. unfold row_with_childs. cbn [row_childs row_attrs].
  rewrite (delete_middle (cell_of <$> ds) [] (cell_of (Some v))), app_nil_r.
  subst t1. by rewrite with_body_with_body.
Qed.

(** *** row_class *)

Lemma row_class_all_run css_class t :
  row_class css_class None t
  = (Return tt, with_body t (row_attr "klass" css_class <$> body t)).
Proof.
  unfold row_class.
  rewrite (run_bind_Return _ _ t (body t) t) by reflexivity.
  rewrite (for_each_rows_all _ (fun row => (Return tt, row_attr "klass" css_class row))).
  - by rewrite traverse_ok by by apply Forall_true.
  - intros t' B row B' Hb. exact (alter_row_middle _ _ _ _ _ Hb).
Qed.

(** X10: [row_class] with no index puts the class on every row of the
    body; with an index within the body it puts it on that row alone; with
    an index outside [0, number of rows) it raises [WidgetDataError] and
    changes nothing.  In no case is a cell touched. *)
Theorem row_class_by_row css_class t :
  row_class css_class None t
  = (Return tt, with_body t (row_attr "klass" css_class <$> body t))
  /\ (forall row_index,
        (0 <= row_index < Z.of_nat (length (body t)))%Z ->
        row_class css_class (Some row_index) t
        = (Return tt,
           with_body t (alter (row_attr "klass" css_class) (Z.to_nat row_index)
                              (body t))))
  /\ (forall row_index,
        ~ (0 <= row_index < Z.of_nat (length (body t)))%Z ->
        row_class css_class (Some row_index) t = (Raise WidgetDataError, t))
  /\ (forall row_index,
        row_childs <$> body (row_class css_class row_index t).2
        = row_childs <$> body t).
Proof.
  assert (forall row_index,
            (0 <= row_index < Z.of_nat (length (body t)))%Z ->
            row_class css_class (Some row_index) t
            = (Return tt,
               with_body t (alter (row_attr "klass" css_class) (Z.to_nat row_index)
                                  (body t)))) as Hin.
  { intros row_index Hr. unfold row_class, is_row_within_bounds.
    rewrite (run_bind_Return _ _ t true t); [done|].
    rewrite (run_bind_Return _ _ t (body t) t) by reflexivity.
    by rewrite !bool_decide_eq_true_2 by lia. }
  assert (forall row_index,
            ~ (0 <= row_index < Z.of_nat (length (body t)))%Z ->
            row_class css_class (Some row_index) t = (Raise WidgetDataError, t)) as Hout.
  { intros row_index Hr. unfold row_class, is_row_within_bounds.
    erewrite run_bind_Raise; [done|].
    rewrite (run_bind_Return _ _ t (body t) t) by reflexivity.
    destruct (decide (0 <= row_index)%Z).
    - rewrite (bool_decide_eq_false_2 (_ < _)%Z) by lia. by rewrite andb_false_r.
    - by rewrite (bool_decide_eq_false_2 (0 <= _)%Z) by lia. }
  split_and!; [apply row_class_all_run|done|done|].
  intros [row_index|].
  - destruct (decide (0 <= row_index < Z.of_nat (length (body t)))%Z) as [Hr|Hr].
    + rewrite Hin by done. cbn [snd]. rewrite body_with_body.
      rewrite (list_fmap_alter _ _ id) by by apply Forall_true.
      by rewrite list_alter_id.
    + by rewrite Hout.
  - rewrite row_class_all_run. cbn [snd]. rewrite body_with_body.
    by rewrite <- list_fmap_compose.
Qed.
End Rows.

Lemma add_row_fixed_width_witness :
  add_row [Some "x"; None] false table_3x3
  = (Return tt, with_body table_3x3 (body table_3x3 ++ [row_of [Some "x"; None]]))
  /\ add_row [Some "w"; Some "x"; Some "y"; Some "z"] false table_3x3
     = (Raise WidgetDataError, table_3x3).
Proof.
  split.
  - apply (proj1 (add_row_fixed_width [Some "x"; None] table_3x3)).
    right. unfold column_count. simpl. lia.
  - apply (proj2 (add_row_fixed_width
                    [Some "w"; Some "x"; Some "y"; Some "z"] table_3x3)).
    split; [discriminate|]. unfold column_count. simpl. lia.
Defined.

Lemma pop_row_empty_cell_loses_row_witness :
  pop_row None false table_empty_cell
  = (Raise IndexError, with_body table_empty_cell [])
  /\ pop_row None true table_empty_cell
     = (Return (inl (mkTr ∅ [new_Td])), with_body table_empty_cell []).
Proof.
  apply (pop_row_empty_cell_loses_row table_empty_cell [] (mkTr ∅ [new_Td]) new_Td).
  - reflexivity.
  - apply list_elem_of_here.
  - reflexivity.
Defined.

Lemma row_class_by_row_witness :
  row_class "x" (Some 1%Z) table_3x3
  = (Return tt, with_body table_3x3 (alter (row_attr "klass" "x") 1 (body table_3x3)))
  /\ row_class "x" (Some 7%Z) table_3x3 = (Raise WidgetDataError, table_3x3).
Proof.
  destruct (row_class_by_row "x" table_3x3) as (_ & Hin & Hout & _). split.
  - apply (Hin 1%Z). simpl. lia.
  - apply (Hout 7%Z). simpl. lia.
Defined.

(** ** Scopes *)

Lemma imap_id {A} (l : list A) : imap (fun _ x => x) l = l.
Proof. etrans; [apply (imap_const id)|]. apply list_fmap_id. Qed.

Lemma alter_as_imap {A} (f : A -> A) (l : list A) : forall i,
  alter f i l = imap (fun k x => if decide (k = i) then f x else x) l.
Proof.
  induction l as [|x l IH]; intros i; [done|].
  destruct i as [|i]; cbn.
  - f_equal. symmetry. etrans; [|apply imap_id]. by apply imap_ext.
  - f_equal. rewrite IH. apply imap_ext. intros k y _. cbn.
    destruct (decide (k = i)), (decide (S k = S i)); done || lia.
Qed.

Lemma imap_imap {A B C} (f : nat -> B -> C) (g : nat -> A -> B) (l : list A) :
  imap f (imap g l) = imap (fun k x => f k (g k x)) l.
Proof.
  revert f g. induction l as [|x l IH]; intros f g; [done|].
  cbn. f_equal. apply IH.
Qed.

Section Scopes.
Context {V : Type}.
Implicit Types (t : TempyTable V) (b B : list (Tr V)) (row : Tr V) (c : Cell V).
Implicit Types (p : Z * Z) (l : list (Z * Z)).

Lemma map_cells_comp f g b :
  map_cells f (map_cells g b) = map_cells (fun r j c => f r j (g r j c)) b.
Proof.
  unfold map_cells. rewrite imap_imap. apply imap_ext. intros r row _.
  unfold row_with_childs. cbn. by rewrite imap_imap.
Qed.

Lemma map_cells_ext f g b :
  (forall r j c, f r j c = g r j c) -> map_cells f b = map_cells g b.
Proof.
  intros Hfg. unfold map_cells. apply imap_ext. intros r row _.
  unfold row_with_childs. f_equal. apply imap_ext. intros j c _. apply Hfg.
Qed.

Lemma map_cells_id b : map_cells (fun _ _ c => c) b = b.
Proof.
  unfold map_cells. etrans; [|apply imap_id]. apply imap_ext. intros r [a cs] _.
  unfold row_with_childs. cbn. f_equal. apply imap_id.
Qed.

Lemma map_cells_length f b : length (map_cells f b) = length b.
Proof. apply length_imap. Qed.

Lemma map_cells_lookup f b r :
  map_cells f b !! r = row_with_childs (imap (f r)) <$> b !! r.
Proof. unfold map_cells. by rewrite list_lookup_imap. Qed.

Lemma cell_lookup_map_cells f b r j :
  cell_lookup (map_cells f b) r j = f r j <$> cell_lookup b r j.
Proof.
  unfold cell_lookup. rewrite map_cells_lookup.
  destruct (b !! r) as [row|]; [|done]. cbn. apply list_lookup_imap.
Qed.

(** One cell altered is a function of the position applied everywhere. *)
Lemma alter_cell_as_map (g : Cell V -> Cell V) r j b :
  alter (row_with_childs (alter g j)) r b
  = map_cells (fun r' j' c => if bool_decide (r' = r /\ j' = j) then g c else c) b.
Proof.
  rewrite alter_as_imap. unfold map_cells. apply imap_ext. intros k [a cs] _.
  unfold row_with_childs. cbn. destruct (decide (k = r)) as [->|Hk].
  - cbn. f_equal. rewrite alter_as_imap. apply imap_ext. intros j' c _.
    destruct (decide (j' = j)).
    + by rewrite bool_decide_eq_true_2.
    + by rewrite bool_decide_eq_false_2 by tauto.
  - f_equal. symmetry. etrans; [|apply imap_id]. apply imap_ext. intros j' c _.
    by rewrite bool_decide_eq_false_2 by tauto.
Qed.

Lemma scope_in_bounds_map_cells f b p :
  scope_in_bounds (map_cells f b) p = scope_in_bounds b p.
Proof.
  unfold scope_in_bounds. rewrite map_cells_length, map_cells_lookup.
  destruct (b !! Z.to_nat p.1) as [row|]; [|done]. cbn.
  unfold col_in_bounds, row_len, row_with_childs. cbn. by rewrite length_imap.
Qed.

Lemma scope_prefix_map_cells f b l :
  scope_prefix (map_cells f b) l = scope_prefix b l.
Proof.
  induction l as [|p l IH]; cbn; [done|].
  by rewrite scope_in_bounds_map_cells, IH.
Qed.

Lemma forallb_scope_map_cells f b l :
  forallb (scope_in_bounds (map_cells f b)) l = forallb (scope_in_bounds b) l.
Proof.
  induction l as [|p l IH]; cbn; [done|].
  by rewrite scope_in_bounds_map_cells, IH.
Qed.

Lemma scope_prefix_promote_all scope_tag l' b l :
  scope_prefix (promote_all scope_tag l' b) l = scope_prefix b l.
Proof. apply scope_prefix_map_cells. Qed.

Lemma forallb_scope_promote_all scope_tag l' b l :
  forallb (scope_in_bounds (promote_all scope_tag l' b)) l
  = forallb (scope_in_bounds b) l.
Proof. apply forallb_scope_map_cells. Qed.

Lemma promote_promote tag tag' c : promote tag (promote tag' c) = promote tag c.
Proof.
  unfold promote. destruct c as [ct a [|v vs]]; cbn; [done|].
  by rewrite insert_insert_eq.
Qed.

Lemma scope_in_bounds_split b p :
  scope_in_bounds b p = true ->
  exists B a cs c cs' B',
    b = B ++ mkTr a (cs ++ c :: cs') :: B' /\
    length B = Z.to_nat p.1 /\ length cs = Z.to_nat p.2 /\
    p = (Z.of_nat (length B), Z.of_nat (length cs)).
Proof.
  unfold scope_in_bounds. intros [Hr Hc]%andb_true_iff.
  apply bool_decide_eq_true in Hr.
  destruct (b !! Z.to_nat p.1) as [row|] eqn:Hrow; [|done].
  apply list_elem_of_split_length in Hrow as (B & B' & -> & HB).
  destruct (col_in_bounds_lookup _ _ Hc) as (cs & c & cs' & Hcs & Hlen).
  unfold col_in_bounds in Hc. apply andb_true_iff in Hc as [Hc0 _].
  apply bool_decide_eq_true in Hc0.
  destruct row as [a cells]. cbn in Hcs. subst cells.
  exists B, a, cs, c, cs', B'. split_and!; [done|done|done|].
  destruct p as [pr pc]. cbn in *. f_equal; lia.
Qed.

Lemma is_row_within_bounds_run (i : Z) t :
  is_row_within_bounds i t
  = if bool_decide (0 <= i < Z.of_nat (length (body t)))%Z
    then (Return true, t) else (Raise WidgetDataError, t).
Proof.
  unfold is_row_within_bounds.
  rewrite (run_bind_Return _ _ t (body t) t) by reflexivity.
  destruct (decide (0 <= i < Z.of_nat (length (body t)))%Z) as [Hi|Hi].
  - rewrite (bool_decide_eq_true_2 (_ <= _ < _)%Z) by done.
    rewrite (bool_decide_eq_true_2 (0 <= i)%Z) by lia.
    by rewrite (bool_decide_eq_true_2 (i < _)%Z) by lia.
  - rewrite (bool_decide_eq_false_2 (_ <= _ < _)%Z) by done.
    destruct (decide (0 <= i)%Z).
    + rewrite (bool_decide_eq_false_2 (i < _)%Z) by lia. by rewrite andb_false_r.
    + by rewrite (bool_decide_eq_false_2 (0 <= i)%Z) by lia.
Qed.

Lemma is_col_within_bounds_run (i : Z) row t :
  is_col_within_bounds i row t
  = if col_in_bounds i row then (Return true, t) else (Raise WidgetDataError, t).
Proof.
  unfold is_col_within_bounds, col_in_bounds, row_len.
  by destruct (_ && _).
Qed.

(** What the loop of [apply_scope] does with one pair. *)
Lemma apply_scope_step scope_tag p t :
  (x <- (ok_row <- is_row_within_bounds p.1 ;;
         row <- row_at (Z.to_nat p.1) ;;
         ok_col <- is_col_within_bounds p.2 row ;;
         c <- cell_at (Z.to_nat p.1) (Z.to_nat p.2) ;;
         ret (if ok_row && ok_col && cell_nonempty c then Some p else None)) ;;
   match x with
   | Some p =>
       cell <- cell_at (Z.to_nat p.1) (Z.to_nat p.2) ;;
       v <- of_outcome (first_child cell) ;;
       alter_cell (Z.to_nat p.1) (Z.to_nat p.2) (fun _ => cell_call new_Th (Some v)) ;;
       alter_cell (Z.to_nat p.1) (Z.to_nat p.2)
         (fun c => mkCell (cell_tag c) (cell_attrs cell) (cell_childs c)) ;;
       alter_cell (Z.to_nat p.1) (Z.to_nat p.2) (cell_attr "scope" scope_tag)
   | None => ret tt
   end) t
  = if scope_in_bounds (body t) p
    then (Return tt, with_body t (promote_all scope_tag [p] (body t)))
    else (Raise WidgetDataError, t).
Proof.
  destruct (scope_in_bounds (body t) p) eqn:Hin.
  - destruct (scope_in_bounds_split _ _ Hin) as (B & a & cs & c & cs' & B' & Hb & HB & Hcs & Hp).
    destruct p as [pr pc]. injection Hp as -> ->. clear HB Hcs.
    cbn [fst snd]. rewrite !Nat2Z.id.
    assert (with_body t (promote_all scope_tag
                           [(Z.of_nat (length B), Z.of_nat (length cs))] (body t))
            = with_body t (B ++ mkTr a (cs ++ promote scope_tag c :: cs') :: B')) as ->.
    { f_equal. rewrite Hb.
      transitivity (alter (row_with_childs (alter (promote scope_tag) (length cs)))
                          (length B) (B ++ mkTr a (cs ++ c :: cs') :: B')).
      - rewrite alter_cell_as_map. apply map_cells_ext. intros r j c'.
        unfold listed.
        destruct (decide (r = length B /\ j = length cs)) as [[-> ->]|Hne].
        + rewrite !bool_decide_eq_true_2; [done|done|by apply list_elem_of_here].
        + rewrite !bool_decide_eq_false_2; [done|done|].
          rewrite list_elem_of_singleton. intros [= ? ?]. apply Hne. lia.
      - rewrite alter_middle. unfold row_with_childs. cbn.
        by rewrite alter_middle. }
    erewrite run_bind_Return; last first.
    { erewrite run_bind_Return; last first.
      { rewrite is_row_within_bounds_run, Hb, length_app. cbn [length].
        by rewrite bool_decide_eq_true_2 by lia. }
      rewrite (run_bind_Return _ _ _ _ _ (row_at_middle _ _ _ _ Hb)).
      erewrite run_bind_Return; last first.
      { rewrite is_col_within_bounds_run. unfold col_in_bounds, row_len.
        cbn [row_childs]. rewrite length_app. cbn [length].
        by rewrite !bool_decide_eq_true_2 by lia. }
      rewrite (run_bind_Return _ _ _ _ _ (cell_at_middle _ _ _ _ _ _ _ Hb)).
      reflexivity. }
    cbn [andb]. unfold promote, cell_nonempty.
    destruct c as [ct ca [|v vs]]; cbn [cell_childs length].
    + rewrite bool_decide_eq_false_2 by lia. by rewrite <- Hb, with_body_id.
    + rewrite bool_decide_eq_true_2 by (cbn; lia). cbn [fst snd].
      rewrite !Nat2Z.id.
      rewrite (run_bind_Return _ _ _ _ _ (cell_at_middle _ _ _ _ _ _ _ Hb)).
      rewrite (run_bind_Return _ _ t v t) by reflexivity.
      erewrite run_bind_Return; last by apply alter_cell_middle.
      erewrite run_bind_Return; last by (apply alter_cell_middle; reflexivity).
      erewrite alter_cell_middle by reflexivity.
      by rewrite !with_body_with_body.
  - erewrite run_bind_Raise; [done|].
    unfold scope_in_bounds in Hin.
    destruct (bool_decide (0 <= p.1 < Z.of_nat (length (body t)))%Z) eqn:Hr.
    + cbn [andb] in Hin.
      erewrite run_bind_Return; last by rewrite is_row_within_bounds_run, Hr.
      destruct (body t !! Z.to_nat p.1) as [row|] eqn:Hrow.
      * erewrite run_bind_Return; last first.
        { unfold row_at. rewrite (run_bind_Return _ _ t (body t) t) by reflexivity.
          by rewrite Hrow. }
        erewrite run_bind_Raise; [done|].
        by rewrite is_col_within_bounds_run, Hin.
      * apply bool_decide_eq_true in Hr. apply lookup_ge_None in Hrow. lia.
    + erewrite run_bind_Raise; [done|]. by rewrite is_row_within_bounds_run, Hr.
Qed.

Lemma promote_all_cons scope_tag p l b :
  promote_all scope_tag l (promote_all scope_tag [p] b)
  = promote_all scope_tag (p :: l) b.
Proof.
  unfold promote_all. rewrite map_cells_comp. apply map_cells_ext. intros r j c.
  unfold listed.
  destruct (decide ((Z.of_nat r, Z.of_nat j) = p)) as [<-|Hne].
  - rewrite (bool_decide_eq_true_2 (_ ∈ [_])) by apply list_elem_of_here.
    rewrite (bool_decide_eq_true_2 (_ ∈ _ :: l)) by apply list_elem_of_here.
    case_bool_decide; [apply promote_promote|done].
  - rewrite (bool_decide_eq_false_2 (_ ∈ [_]))
      by (rewrite list_elem_of_singleton; done).
    destruct (decide ((Z.of_nat r, Z.of_nat j) ∈ l)).
    + rewrite !bool_decide_eq_true_2; [done|by right|done].
    + rewrite !bool_decide_eq_false_2; [done| |done].
      rewrite elem_of_cons. intros [?|?]; done.
Qed.

Lemma promote_all_nil scope_tag b : promote_all scope_tag [] b = b.
Proof.
  unfold promote_all. etrans; [|apply map_cells_id]. apply map_cells_ext.
  intros r j c. unfold listed. by rewrite bool_decide_eq_false_2 by apply not_elem_of_nil.
Qed.

(** [apply_scope] goes through the pairs up to the first that names no
    cell, and raises there. *)
Lemma apply_scope_run scope_tag l : forall t,
  apply_scope l scope_tag t
  = (if forallb (scope_in_bounds (body t)) l then Return tt else Raise WidgetDataError,
     with_body t (promote_all scope_tag (scope_prefix (body t) l) (body t))).
Proof.
  intros t. unfold apply_scope. rewrite for_gen_fmap. revert t.
  induction l as [|p l IH]; intros t.
  - cbn. by rewrite promote_all_nil, with_body_id.
  - cbn [for_each forallb scope_prefix].
    pose proof (apply_scope_step scope_tag p t) as Hstep.
    destruct (scope_in_bounds (body t) p) eqn:Hin.
    + erewrite run_bind_Return by exact Hstep.
      rewrite IH, body_with_body.
      rewrite forallb_scope_promote_all, scope_prefix_promote_all.
      by rewrite with_body_with_body, promote_all_cons.
    + erewrite run_bind_Raise by exact Hstep.
      by rewrite promote_all_nil, with_body_id.
Qed.

Lemma scope_all_in_bounds b l :
  Forall (fun p => scope_in_bounds b p = true) l ->
  forallb (scope_in_bounds b) l = true /\ scope_prefix b l = l.
Proof.
  induction 1 as [|p l Hp _ [IH1 IH2]]; cbn; [done|].
  by rewrite Hp, IH1, IH2.
Qed.

Lemma scope_first_out b pre p post :
  Forall (fun p => scope_in_bounds b p = true) pre ->
  scope_in_bounds b p = false ->
  forallb (scope_in_bounds b) (pre ++ p :: post) = false /\
  scope_prefix b (pre ++ p :: post) = pre.
Proof.
  intros Hpre Hp. induction Hpre as [|q pre Hq _ [IH1 IH2]]; cbn.
  - by rewrite Hp.
  - by rewrite Hq, IH1, IH2.
Qed.

Lemma promote_all_lookup scope_tag l b r j :
  cell_lookup (promote_all scope_tag l b) r j
  = (fun c => if listed l r j then promote scope_tag c else c) <$> cell_lookup b r j.
Proof. apply cell_lookup_map_cells. Qed.

Lemma promote_all_shape scope_tag l b :
  row_len <$> promote_all scope_tag l b = row_len <$> b.
Proof.
  unfold promote_all, map_cells. rewrite fmap_imap.
  etrans; [|apply (imap_const row_len)]. apply imap_ext. intros r row _.
  unfold row_len, row_with_childs. cbn. apply length_imap.
Qed.

(** X11: when every pair of the list names a cell of the body,
    [apply_scope] returns, and afterwards each listed cell that had content
    is a header cell holding the first value it had, with its attributes
    and the scope added; every other cell is as it was. *)
Theorem apply_scope_promotes scope_tag l t :
  Forall (fun p => scope_in_bounds (body t) p = true) l ->
  apply_scope l scope_tag t
  = (Return tt, with_body t (promote_all scope_tag l (body t)))
  /\ forall r j,
       cell_lookup (body (apply_scope l scope_tag t).2) r j
       = (fun c => if listed l r j then promote scope_tag c else c)
           <$> cell_lookup (body t) r j.
Proof.
  intros [Hall Hpre]%scope_all_in_bounds.
  rewrite apply_scope_run, Hall, Hpre. split; [done|].
  intros r j. cbn [snd]. rewrite body_with_body. apply promote_all_lookup.
Qed.

(** X12: at the first pair that names no cell [apply_scope] raises
    [WidgetDataError]; the cells listed before that pair have been
    promoted, the cells listed after it have not. *)
Theorem apply_scope_stops_out_of_bounds scope_tag pre p post t :
  Forall (fun p => scope_in_bounds (body t) p = true) pre ->
  scope_in_bounds (body t) p = false ->
  apply_scope (pre ++ p :: post) scope_tag t
  = (Raise WidgetDataError, with_body t (promote_all scope_tag pre (body t))).
Proof.
  intros Hpre Hp. destruct (scope_first_out _ _ _ post Hpre Hp) as [Hall Hprefix].
  by rewrite apply_scope_run, Hall, Hprefix.
Qed.

Lemma scope_guard l scope_tag t :
  (if bool_decide (0 < length l) then apply_scope l scope_tag else ret tt) t
  = apply_scope l scope_tag t.
Proof. by destruct l. Qed.

Lemma scope_stage_run (lo : option (list (Z * Z))) scope_tag t :
  match lo with
  | Some l => if bool_decide (0 < length l) then apply_scope l scope_tag else ret tt
  | None => ret tt
  end t
  = (if (scope_stage (body t) lo).1 then Return tt else Raise WidgetDataError,
     with_body t (promote_all scope_tag (scope_stage (body t) lo).2 (body t))).
Proof.
  destruct lo as [l|]; cbn [scope_stage fst snd].
  - by rewrite scope_guard, apply_scope_run.
  - by rewrite promote_all_nil, with_body_id.
Qed.

Lemma scope_stage_promote_all scope_tag l b lo :
  scope_stage (promote_all scope_tag l b) lo = scope_stage b lo.
Proof.
  destruct lo as [l'|]; [|done]. cbn.
  by rewrite forallb_scope_promote_all, scope_prefix_promote_all.
Qed.

(** [make_scope] goes through the column list and then, unless that
    raised, through the row list. *)
Lemma make_scope_run col_scope_list row_scope_list t :
  make_scope col_scope_list row_scope_list t
  = let cols := scope_stage (body t) col_scope_list in
    let rows := scope_stage (body t) row_scope_list in
    if cols.1
    then (if rows.1 then Return tt else Raise WidgetDataError,
          with_body t (promote_all "row" rows.2 (promote_all "col" cols.2 (body t))))
    else (Raise WidgetDataError, with_body t (promote_all "col" cols.2 (body t))).
Proof.
  unfold make_scope, bind. rewrite scope_stage_run.
  destruct (scope_stage (body t) col_scope_list) as [[] lc]; cbn [fst snd]; [|done].
  rewrite scope_stage_run, body_with_body, scope_stage_promote_all.
  by rewrite with_body_with_body.
Qed.

Lemma promote_row_col_twice lc lr b :
  promote_all "row" lr (promote_all "col" lc
    (promote_all "row" lr (promote_all "col" lc b)))
  = promote_all "row" lr (promote_all "col" lc b).
Proof.
  unfold promote_all. rewrite !map_cells_comp. apply map_cells_ext. intros r j c.
  destruct (listed lr r j), (listed lc r j); by rewrite ?promote_promote.
Qed.

Lemma promote_col_twice lc b :
  promote_all "col" lc (promote_all "col" lc b) = promote_all "col" lc b.
Proof.
  unfold promote_all. rewrite !map_cells_comp. apply map_cells_ext. intros r j c.
  destruct (listed lc r j); by rewrite ?promote_promote.
Qed.

(** X13: [make_scope] is idempotent: whatever the lists are, a second
    call with the same lists on the table that the first call left has the
    same outcome and changes nothing; and no call changes the number of
    rows or the number of cells of a row. *)
Theorem make_scope_idempotent col_scope_list row_scope_list t :
  let r := make_scope col_scope_list row_scope_list t in
  make_scope col_scope_list row_scope_list r.2 = r /\
  row_len <$> body r.2 = row_len <$> body t.
Proof.
  cbn zeta. rewrite (make_scope_run _ _ t). cbn zeta.
  destruct (scope_stage (body t) col_scope_list) as [okc lc] eqn:Hc.
  destruct (scope_stage (body t) row_scope_list) as [okr lr] eqn:Hr.
  cbn [fst snd]. destruct okc; cbn [snd].
  - rewrite make_scope_run. cbn zeta. rewrite body_with_body.
    rewrite !scope_stage_promote_all, Hc, Hr. cbn [fst snd].
    rewrite with_body_with_body, promote_row_col_twice.
    by rewrite !promote_all_shape.
  - rewrite make_scope_run. cbn zeta. rewrite body_with_body.
    rewrite !scope_stage_promote_all, Hc. cbn [fst snd].
    rewrite with_body_with_body, promote_col_twice.
    by rewrite !promote_all_shape.
Qed.

(** X14: when the pairs of both lists name cells, [make_scope] returns,
    and a cell with content that is in the row list ends with the scope
    ["row"], also when it is in the column list as well; one that is only
    in the column list ends with the scope ["col"]; any other cell is as
    it was. *)
Theorem make_scope_row_after_col lc lr t :
  Forall (fun p => scope_in_bounds (body t) p = true) lc ->
  Forall (fun p => scope_in_bounds (body t) p = true) lr ->
  (make_scope (Some lc) (Some lr) t).1 = Return tt /\
  forall r j,
    cell_lookup (body (make_scope (Some lc) (Some lr) t).2) r j
    = (fun c => if listed lr r j then promote "row" c
                else if listed lc r j then promote "col" c else c)
        <$> cell_lookup (body t) r j.
Proof.
  intros [Hc1 Hc2]%scope_all_in_bounds [Hr1 Hr2]%scope_all_in_bounds.
  rewrite make_scope_run. cbn [scope_stage fst snd].
  rewrite Hc1, Hc2, Hr1, Hr2. cbn [fst snd]. split; [done|].
  intros r j. rewrite body_with_body, !promote_all_lookup, <- option_fmap_compose.
  destruct (cell_lookup (body t) r j) as [c|]; [|done]. cbn.
  destruct (listed lr r j), (listed lc r j); by rewrite ?promote_promote.
Qed.
End Scopes.

Lemma apply_scope_promotes_witness :
  apply_scope [(0, 0); (1, 1)]%Z "col" table_3x3
  = (Return tt, with_body table_3x3
                  (promote_all "col" [(0, 0); (1, 1)]%Z (body table_3x3)))
  /\ forall r j,
       cell_lookup (body (apply_scope [(0, 0); (1, 1)]%Z "col" table_3x3).2) r j
       = (fun c => if listed [(0, 0); (1, 1)]%Z r j then promote "col" c else c)
           <$> cell_lookup (body table_3x3) r j.
Proof.
  apply (apply_scope_promotes "col" [(0, 0); (1, 1)]%Z table_3x3).
  repeat constructor.
Defined.

Lemma apply_scope_stops_out_of_bounds_witness :
  apply_scope [(0, 0); (5, 5); (2, 2)]%Z "row" table_3x3
  = (Raise WidgetDataError,
     with_body table_3x3 (promote_all "row" [(0, 0)]%Z (body table_3x3))).
Proof.
  apply (apply_scope_stops_out_of_bounds "row" [(0, 0)]%Z (5, 5)%Z [(2, 2)]%Z
           table_3x3).
  - repeat constructor.
  - reflexivity.
Defined.

Lemma make_scope_row_after_col_witness :
  (make_scope (Some [(0, 0); (1, 1)]%Z) (Some [(1, 1)]%Z) table_3x3).1 = Return tt
  /\ forall r j,
       cell_lookup
         (body (make_scope (Some [(0, 0); (1, 1)]%Z) (Some [(1, 1)]%Z) table_3x3).2)
         r j
       = (fun c => if listed [(1, 1)]%Z r j then promote "row" c
                   else if listed [(0, 0); (1, 1)]%Z r j then promote "col" c
                        else c)
           <$> cell_lookup (body table_3x3) r j.
Proof.
  apply (make_scope_row_after_col [(0, 0); (1, 1)]%Z [(1, 1)]%Z table_3x3);
    repeat constructor.
Defined.

(** ** The caption and the constructor *)

Section Construct.
Context {V : Type}.
Implicit Types (t : TempyTable V) (w : Widget V) (text : option V).

Lemma on_table_run {A} (m : M (TempyTable V) A) w o t' :
  m (table w) = (o, t') -> on_table m w = (o, mkWidget t' (caption w)).
Proof. intros Hm. unfold on_table. by rewrite Hm. Qed.

Lemma make_caption_new text w :
  caption w = None ->
  make_caption text w
  = (Return tt,
     mkWidget (mkTable (before (table w)) (body (table w))
                       (after (table w) ++ [Caption (option_list text)])
                       (header (table w)) (footer (table w)))
              (Some (length (table_childs (table w))))).
Proof.
  intros Hc. unfold make_caption.
  rewrite (run_bind_Return _ _ w w w) by reflexivity. rewrite Hc. cbn [node_bool negb].
  erewrite run_bind_Return by reflexivity.
  erewrite run_bind_Return by reflexivity.
  cbn [caption table]. unfold modify. rewrite table_childs_length.
  rewrite (alter_child_last (append_child (Caption []) (table w)) _
             (Caption []) (after (table w))) by done.
  reflexivity.
Qed.

Lemma make_caption_last text w aft content :
  after (table w) = aft ++ [Caption content] ->
  caption w = Some (length (before (table w)) + S (length aft)) ->
  make_caption text w
  = (Return tt,
     mkWidget (mkTable (before (table w)) (body (table w))
                       (aft ++ [Caption (option_list text)])
                       (header (table w)) (footer (table w)))
              (caption w)).
Proof.
  intros Ha Hc. unfold make_caption.
  rewrite (run_bind_Return _ _ w w w) by reflexivity. rewrite Hc. cbn [node_bool negb].
  rewrite (run_bind_Return _ _ w tt w) by reflexivity.
  rewrite (run_bind_Return _ _ w w w) by reflexivity. rewrite Hc.
  unfold modify.
  rewrite (alter_child_last (table w) _ (Caption content) aft) by done.
  cbn. by rewrite Hc.
Qed.

(** X15: [make_caption] called twice on a table without caption leaves
    one caption, bound to the attribute [caption] and holding the second
    text alone; the other children of the table are as they were. *)
Theorem make_caption_replaces text1 text2 w :
  caption w = None ->
  (make_caption text1 ;; make_caption text2) w
  = (Return tt,
     mkWidget (mkTable (before (table w)) (body (table w))
                       (after (table w) ++ [Caption (option_list text2)])
                       (header (table w)) (footer (table w)))
              (Some (length (table_childs (table w))))).
Proof.
  intros Hc. rewrite (run_bind_Return _ _ _ _ _ (make_caption_new text1 w Hc)).
  erewrite make_caption_last; [reflexivity|reflexivity|].
  cbn. by rewrite table_childs_length.
Qed.

Section InitFacts.
Variable value_bool : V -> bool.

Lemma last_take_snoc {A} (l : list A) x :
  last (l ++ [x]) = Some x /\ take (length (l ++ [x]) - 1) (l ++ [x]) = l.
Proof.
  split; [apply last_snoc|].
  rewrite length_app. cbn. rewrite Nat.add_1_r. cbn. rewrite Nat.sub_0_r.
  by rewrite take_app_length.
Qed.

(** X16: built from data with at least one row, all rows of one length
    that is not zero, and neither head nor foot, the table has the body of
    the data, row for row and value for value, no header and no footer,
    and a caption when the caption text is true. *)
Theorem init_from_data rows cols data C text :
  data <> [] -> 0 < C ->
  Forall (fun d_row => length d_row = C) data ->
  __init__ value_bool rows cols (Some data) text false false new_widget
  = (Return tt,
     if from_option value_bool false text
     then mkWidget (mkTable [] (row_of <$> data) [Caption (option_list text)] None None)
                   (Some 1)
     else mkWidget (mkTable [] (row_of <$> data) [] None None) None).
Proof.
  intros Hne HC Hall. unfold __init__.
  destruct data as [|d_row data]; [done|]. cbn [seq_bool negb default from_option id andb].
  destruct (from_option value_bool false text).
  - rewrite (run_bind_Return _ _ _ _ _ (make_caption_new text new_widget eq_refl)).
    erewrite run_bind_Return by reflexivity.
    erewrite run_bind_Return by reflexivity.
    erewrite on_table_run; [reflexivity|].
    by apply (populate_rectangular C).
  - erewrite run_bind_Return by reflexivity.
    erewrite run_bind_Return by reflexivity.
    erewrite run_bind_Return by reflexivity.
    erewrite on_table_run; [reflexivity|].
    by apply (populate_rectangular C).
Qed.

(** X17: built with head and foot from data of at least three rows, the
    table has a header with the values of the first row in header cells, a
    footer with the values of the last row, and the rows in between, all
    of one length that is not zero, as its body. *)
Theorem init_head_foot rows cols first mid final C :
  mid <> [] -> 0 < C ->
  Forall (fun d_row => length d_row = C) mid ->
  __init__ value_bool rows cols (Some (first :: mid ++ [final])) None true true
           new_widget
  = (Return tt,
     mkWidget (mkTable [] (row_of <$> mid)
                       [Thead [part_row Th first]; Tfoot [part_row Td final]]
                       (Some 1) (Some 2))
              None).
Proof.
  intros Hne HC Hall. unfold __init__.
  cbn [seq_bool negb default from_option id andb].
  rewrite (bool_decide_eq_true_2 (0 < _)%Z) by (cbn [length]; lia).
  erewrite run_bind_Return by reflexivity.
  erewrite run_bind_Return; last first.
  { erewrite run_bind_Return; [reflexivity|].
    apply on_table_run, make_header_run. }
  cbn [andb]. destruct (last_take_snoc mid final) as [-> Htake].
  erewrite run_bind_Return; last first.
  { erewrite run_bind_Return; [reflexivity|].
    apply on_table_run, make_footer_run. }
  rewrite Htake.
  erewrite on_table_run; [reflexivity|].
  by apply (populate_rectangular C).
Qed.

(** X18: from data of a single row the constructor cannot make a table
    with a head or a foot: the row is used up for the header or the footer
    and filling the body with no rows raises [ValueError]; with both, the
    footer finds no row left and the call raises [IndexError]. *)
Theorem init_single_row_head_or_foot rows cols d_row text head foot :
  head || foot = true ->
  (__init__ value_bool rows cols (Some [d_row]) text head foot new_widget).1
  = Raise (if head && foot then IndexError else ValueError).
Proof.
  intros Hhf. unfold __init__. cbn [seq_bool negb default from_option id length].
  rewrite (bool_decide_eq_true_2 (0 < _)%Z) by lia. rewrite !andb_true_r.
  assert (exists w1,
            (if from_option value_bool false text then make_caption text else ret tt)
              new_widget = (Return tt, w1)) as [w1 Hcap].
  { destruct (from_option value_bool false text); [|by eexists].
    eexists. by apply make_caption_new. }
  rewrite (run_bind_Return _ _ _ _ _ Hcap).
  destruct head, foot; try done.
  - erewrite run_bind_Return; last first.
    { erewrite run_bind_Return; [reflexivity|]. apply on_table_run, make_header_run. }
    reflexivity.
  - erewrite run_bind_Return; last first.
    { erewrite run_bind_Return; [reflexivity|]. apply on_table_run, make_header_run. }
    erewrite run_bind_Return by reflexivity.
    erewrite on_table_run; [reflexivity|]. rewrite populate_resize. reflexivity.
  - erewrite run_bind_Return by reflexivity. cbn [last].
    erewrite run_bind_Return; last first.
    { erewrite run_bind_Return; [reflexivity|]. apply on_table_run, make_footer_run. }
    erewrite on_table_run; [reflexivity|]. rewrite populate_resize. reflexivity.
Qed.

(** X19: built without data, head or foot, with at least one row and one
    column asked for, the table has a body of that many rows of that many
    cells, none with content; with no columns asked for the same call
    raises [AttributeError]. *)
Theorem init_grid rows cols (data : option (list (list (option V)))) :
  seq_bool data = false ->
  (0 < rows)%Z ->
  ((0 < cols)%Z ->
   __init__ value_bool rows cols data None false false new_widget
   = (Return tt,
      mkWidget (mkTable [] (replicate (Z.to_nat rows)
                              (row_of (replicate (Z.to_nat cols) None)))
                        [] None None)
               None))
  /\ ((cols <= 0)%Z ->
      (__init__ value_bool rows cols data None false false new_widget).1
      = Raise AttributeError).
Proof.
  intros Hdata Hrows. unfold __init__. rewrite Hdata.
  cbn [negb andb from_option Z.b2z]. rewrite !Z.add_0_r.
  destruct (Z.to_nat rows) as [|n] eqn:Hn; [lia|].
  split.
  - intros Hcols.
    erewrite run_bind_Return by reflexivity.
    erewrite run_bind_Return by reflexivity.
    erewrite run_bind_Return by reflexivity.
    cbn [replicate seq_bool].
    erewrite on_table_run; [|apply (populate_rectangular (Z.to_nat cols))].
    + cbn. by rewrite fmap_replicate.
    + done.
    + lia.
    + apply (Forall_replicate (fun d_row => length d_row = Z.to_nat cols) (S n)).
      apply length_replicate.
  - intros Hcols.
    erewrite run_bind_Return by reflexivity.
    erewrite run_bind_Return by reflexivity.
    erewrite run_bind_Return by reflexivity.
    cbn [replicate seq_bool]. replace (Z.to_nat cols) with 0 by lia.
    erewrite on_table_run; [reflexivity|]. rewrite populate_resize. reflexivity.
Qed.
End InitFacts.
End Construct.

Lemma make_caption_replaces_witness :
  (make_caption (Some "first") ;; make_caption (Some "second")) new_widget
  = (Return tt,
     mkWidget (mkTable [] [] [Caption ["second"]] None None) (Some 1)).
Proof.
  apply (make_caption_replaces (Some "first") (Some "second") new_widget).
  reflexivity.
Defined.

Lemma init_from_data_witness :
  __init__ text_bool 0 0 (Some [[Some "a"; None]; [Some "b"; Some "c"]])
           (Some "cap") false false new_widget
  = (Return tt,
     mkWidget (mkTable [] [row_of [Some "a"; None]; row_of [Some "b"; Some "c"]]
                       [Caption ["cap"]] None None)
              (Some 1)).
Proof.
  apply (init_from_data text_bool 0 0 [[Some "a"; None]; [Some "b"; Some "c"]] 2
           (Some "cap")).
  - discriminate.
  - lia.
  - repeat constructor.
Defined.

Lemma init_head_foot_witness :
  __init__ text_bool 0 0
           (Some [[Some "h1"; Some "h2"]; [Some "a"; Some "b"]; [Some "f1"; None]])
           None true true new_widget
  = (Return tt,
     mkWidget (mkTable [] [row_of [Some "a"; Some "b"]]
                       [Thead [part_row Th [Some "h1"; Some "h2"]];
                        Tfoot [part_row Td [Some "f1"; None]]]
                       (Some 1) (Some 2))
              None).
Proof.
  apply (init_head_foot text_bool 0 0 [Some "h1"; Some "h2"] [[Some "a"; Some "b"]]
           [Some "f1"; None] 2).
  - discriminate.
  - lia.
  - repeat constructor.
Defined.

Lemma init_single_row_head_or_foot_witness :
  (__init__ text_bool 0 0 (Some [[Some "a"; Some "b"]]) None true false new_widget).1
  = Raise ValueError.
Proof.
  apply (init_single_row_head_or_foot text_bool 0 0 [Some "a"; Some "b"] None
           true false).
  reflexivity.
Defined.

Lemma init_grid_witness :
  __init__ text_bool 2 3 None None false false new_widget
  = (Return tt,
     mkWidget (mkTable [] (replicate 2 (row_of (replicate 3 None))) [] None None)
              None)
  /\ (__init__ text_bool 2 0 None None false false new_widget).1
     = Raise AttributeError.
Proof.
  split.
  - apply (proj1 (init_grid text_bool 2 3 None eq_refl ltac:(lia))). lia.
  - apply (proj2 (init_grid text_bool 2 0 None eq_refl ltac:(lia))). lia.
Defined.

(** ** More on TempyList *)

Section ListMore.
Import TempyList.

Lemma self_call_run child childs :
  self_call child childs = (Return (length childs), childs ++ [child]).
Proof. reflexivity. Qed.

Lemma process_li_cons rec kind k v d childs :
  __process_li_struct rec kind ((k, v) :: d) childs
  = if py_bool v
    then match rec (PTag kind) v with
         | Return sub =>
             __process_li_struct rec kind d
               (childs ++ [node_call sub (elem_of_key Li k)])
         | Raise ex => (Raise ex, childs ++ [elem_of_key Li k])
         end
    else __process_li_struct rec kind d (childs ++ [elem_of_key Li k]).
Proof.
  unfold __process_li_struct. cbn [for_each].
  unfold bind, self_call, get, modify, ret, lift. cbn.
  destruct (py_bool v); [|done].
  destruct (rec (PTag kind) v) as [sub|ex]; [|done].
  by rewrite alter_middle.
Qed.

Lemma process_li_items kind d : forall childs items,
  Forall2 (li_item_of kind) d items ->
  __process_li_struct TempyList kind d childs = (Return tt, childs ++ items).
Proof.
  induction d as [|[k v] d IH]; intros childs items Hitems.
  - apply Forall2_nil_inv_l in Hitems as ->. by rewrite app_nil_r.
  - apply Forall2_cons_inv_l in Hitems as (item & items' & Hitem & Hitems & ->).
    rewrite process_li_cons. unfold li_item_of in Hitem. cbn [fst snd] in Hitem.
    destruct (py_bool v).
    + destruct Hitem as (sub & -> & ->).
      rewrite (IH _ items') by done. by rewrite <- app_assoc.
    + subst item. rewrite (IH _ items') by done. by rewrite <- app_assoc.
Qed.

Lemma process_li_returns kind d : forall childs childs',
  __process_li_struct TempyList kind d childs = (Return tt, childs') ->
  exists items, childs' = childs ++ items /\ Forall2 (li_item_of kind) d items.
Proof.
  induction d as [|[k v] d IH]; intros childs childs' Hrun.
  - injection Hrun as <-. exists []. by rewrite app_nil_r.
  - rewrite process_li_cons in Hrun. destruct (py_bool v) eqn:Hv.
    + destruct (TempyList (PTag kind) v) as [sub|ex] eqn:Hsub; [|done].
      apply IH in Hrun as (items & -> & Hitems).
      exists (node_call sub (elem_of_key Li k) :: items).
      rewrite <- app_assoc. split; [done|]. constructor; [|done].
      unfold li_item_of. cbn [fst snd]. rewrite Hv. eauto.
    + apply IH in Hrun as (items & -> & Hitems).
      exists (elem_of_key Li k :: items).
      rewrite <- app_assoc. split; [done|]. constructor; [|done].
      unfold li_item_of. cbn [fst snd]. by rewrite Hv.
Qed.

(** An unordered or ordered list over a mapping without ['_typ'], in
    terms of the lists for its values. *)
Lemma TempyList_li_run typ kind d :
  class_of typ = Return kind -> kind <> Dl ->
  dict_get d (Some "_typ") = None ->
  TempyList typ (PDict d)
  = match __process_li_struct TempyList kind d [] with
    | (Return _, childs) => Return (Elem kind childs)
    | (Raise ex, _) => Raise ex
    end.
Proof.
  intros Hcls Hkind Hkey. unfold TempyList at 1. cbn [depth __new__].
  unfold resolve_typ, pop_typ. rewrite Hkey, Hcls.
  unfold __init__, populate. rewrite decide_False by done.
  erewrite process_li_ext; [reflexivity|].
  intros k v Hin _. apply TempyList_fuel_enough.
  apply depth_value in Hin. cbn [depth] in Hin. lia.
Qed.

(** X20: an unordered or ordered list over a mapping without the key
    ['_typ'], in which no mapping with that key occurs twice among the
    values at any depth, so that none is reached after its key was taken
    out, is built exactly when the list for every true value is, and then
    has one item per entry, in the order of the mapping: the item holds
    the key and, for a true value, the sublist built from the value with
    the kind of the list as kind argument. *)
Theorem li_items_per_entry typ kind d items :
  class_of typ = Return kind -> kind <> Dl ->
  dict_get d (Some "_typ") = None ->
  NoDup (typ_dicts (PDict d)) ->
  TempyList typ (PDict d) = Return (Elem kind items)
  <-> Forall2 (li_item_of kind) d items.
Proof.
  intros Hcls Hkind Hkey _. rewrite (TempyList_li_run _ _ _ Hcls Hkind Hkey). split.
  - destruct (__process_li_struct _ kind d []) as [[[]|ex] childs] eqn:Hrun; [|done].
    intros [= ->]. by apply process_li_returns in Hrun as (items' & -> & Hitems).
  - intros Hitems. by rewrite (process_li_items _ _ [] items).
Qed.

(** X21: in an unordered or ordered list a value that is a text, not
    empty, cannot be turned into a sublist: the list is not built, the
    call raises. *)
Theorem li_text_value_fails typ kind d k s :
  class_of typ = Return kind -> kind <> Dl ->
  dict_get d (Some "_typ") = None ->
  (k, PStr s) ∈ d -> s <> EmptyString ->
  exists ex, TempyList typ (PDict d) = Raise ex.
Proof.
  intros Hcls Hkind Hkey Hin Hs.
  rewrite (TempyList_li_run _ _ _ Hcls Hkind Hkey).
  destruct (__process_li_struct _ kind d []) as [[[]|ex] childs] eqn:Hrun;
    [|by eexists].
  exfalso. apply process_li_returns in Hrun as (items & _ & Hitems).
  apply list_elem_of_lookup in Hin as [i Hi].
  destruct (Forall2_lookup_l _ _ _ _ _ Hitems Hi) as (item & _ & Hitem).
  unfold li_item_of in Hitem. cbn in Hitem.
  rewrite bool_decide_eq_false_2 in Hitem by done. cbn in Hitem.
  destruct Hitem as (sub & Hsub & _). by destruct kind.
Qed.

(** *** Definition lists *)

Lemma for_each_dd (keys : list Key) : forall childs,
  for_each keys (fun elem => self_call (elem_of_key Dd elem) ;; ret tt) childs
  = (Return tt, childs ++ (elem_of_key Dd <$> keys)).
Proof.
  induction keys as [|k keys IH]; intros childs.
  - cbn. by rewrite app_nil_r.
  - cbn [for_each]. erewrite run_bind_Return; last first.
    { erewrite run_bind_Return by apply self_call_run. reflexivity. }
    by rewrite IH, fmap_cons, <- app_assoc.
Qed.

Lemma elem_of_key_flat tag k :
  tag = Dt \/ tag = Dd -> is_flat_term (elem_of_key tag k) = true.
Proof. intros [-> | ->]; by destruct k. Qed.

Lemma process_dl_run d : forall childs,
  exists terms,
    __process_dl_struct d childs = (Return tt, childs ++ terms) /\
    forallb is_flat_term terms = true /\
    length (List.filter is_term terms) = length d.
Proof.
  induction d as [|[k v] d IH]; intros childs.
  - exists []. by rewrite app_nil_r.
  - unfold __process_dl_struct in *. cbn [for_each].
    assert (exists defs,
              (if py_bool v
               then match v with
                    | PList l =>
                        for_each l (fun elem => self_call (elem_of_key Dd elem) ;; ret tt)
                    | PDict d0 =>
                        for_each d0.*1
                          (fun elem => self_call (elem_of_key Dd elem) ;; ret tt)
                    | _ => self_call (Elem Dd [Content v]) ;; ret tt
                    end
               else ret tt) (childs ++ [elem_of_key Dt k])
              = (Return tt, (childs ++ [elem_of_key Dt k]) ++ defs) /\
              forallb is_flat_term defs = true /\
              List.filter is_term defs = []) as (defs & Hdefs & Hflat & Hterm).
    { assert (forall keys : list Key,
                forallb is_flat_term (elem_of_key Dd <$> keys) = true /\
                List.filter is_term (elem_of_key Dd <$> keys) = []) as Hdd.
      { induction keys as [|k' keys [IH1 IH2]]; [done|]. split.
        - cbn. rewrite IH1. by destruct k'.
        - cbn. by rewrite IH2. }
      destruct (py_bool v); [|exists []; by rewrite app_nil_r].
      destruct v as [|s|t|l|d0].
      - exists [Elem Dd [Content PNone]]. done.
      - exists [Elem Dd [Content (PStr s)]]. done.
      - exists [Elem Dd [Content (PTag t)]]. done.
      - exists (elem_of_key Dd <$> l). rewrite for_each_dd. split; [done|apply Hdd].
      - exists (elem_of_key Dd <$> d0.*1). rewrite for_each_dd. split; [done|apply Hdd]. }
    destruct (IH ((childs ++ [elem_of_key Dt k]) ++ defs))
      as (terms & Hterms & Hflat' & Hterm').
    exists (elem_of_key Dt k :: defs ++ terms). split_and!.
    + erewrite run_bind_Return; last first.
      { erewrite run_bind_Return by apply self_call_run. exact Hdefs. }
      rewrite Hterms. by rewrite <- !app_assoc.
    + cbn. rewrite forallb_app, Hflat, Hflat'. by destruct k.
    + cbn. rewrite List.filter_app, Hterm. cbn. by rewrite Hterm'.
Qed.

(** X22: a definition list over a mapping without the key ['_typ'] is
    always built, whatever the values are, and it is flat: its children
    are terms and definitions that hold contents only, side by side, with
    one term per entry of the mapping. *)
Theorem dl_is_flat typ d :
  class_of typ = Return Dl ->
  dict_get d (Some "_typ") = None ->
  exists terms,
    TempyList typ (PDict d) = Return (Elem Dl terms) /\
    forallb is_flat_term terms = true /\
    length (List.filter is_term terms) = length d.
Proof.
  intros Hcls Hkey. unfold TempyList. cbn [depth __new__].
  unfold resolve_typ, pop_typ. rewrite Hkey, Hcls.
  unfold __init__, populate. rewrite decide_True by done.
  destruct (process_dl_run d []) as (terms & -> & Hflat & Hterm). eauto.
Qed.

(** *** The key ['_typ'] and the kind argument *)

Lemma dict_get_del_NoDup d k :
  NoDup d.*1 -> dict_get (dict_del d k) k = None.
Proof.
  induction d as [|[k' v] d IH]; intros Hnd; [done|].
  cbn in Hnd. apply NoDup_cons in Hnd as [Hk' Hnd]. cbn.
  destruct (decide (k = k')) as [->|Hne].
  - clear IH. induction d as [|[k'' v'] d IH]; [done|]. cbn.
    cbn in Hk'. apply not_elem_of_cons in Hk' as [? ?].
    rewrite decide_False by done. apply IH; [done|].
    cbn in Hnd. by apply NoDup_cons in Hnd as [_ ?].
  - cbn. rewrite decide_False by done. by apply IH.
Qed.

(** X23: on a mapping, whose keys are distinct, an entry ['_typ'] does
    what the kind argument does: the list is the one built from the
    mapping without that entry with the value of the entry as kind
    argument, whatever kind argument is given beside it. *)
Theorem typ_entry_as_kind_argument typ d v :
  NoDup d.*1 ->
  dict_get d (Some "_typ") = Some v ->
  TempyList typ (PDict d) = TempyList v (PDict (dict_del d (Some "_typ"))).
Proof.
  intros Hnd Hget. unfold TempyList. cbn [depth __new__].
  unfold resolve_typ at 1 2, pop_typ. rewrite Hget.
  rewrite (dict_get_del_NoDup _ _ Hnd).
  destruct (class_of v) as [t|ex]; [|done].
  unfold __init__. erewrite populate_ext; [reflexivity|].
  intros d' k v' [= <-] Hin _.
  pose proof (depth_value _ _ _ Hin) as Hd1.
  pose proof (depth_value _ _ _ (dict_del_elem_of _ _ _ Hin)) as Hd2.
  cbn [depth] in Hd1, Hd2. apply new_fuel_enough; lia.
Qed.

(** X24: a struct that is a text, the empty one as well, is refused with
    [WidgetDataError] whatever the kind is, and [None] as struct gives the
    list of the kind without any item. *)
Theorem list_from_no_container typ kind :
  class_of typ = Return kind ->
  (forall s, TempyList typ (PStr s) = Raise WidgetDataError) /\
  TempyList typ PNone = Return (Elem kind []).
Proof.
  intros Hcls. unfold TempyList. cbn [depth __new__].
  unfold resolve_typ, pop_typ. rewrite Hcls. done.
Qed.
End ListMore.

Lemma li_items_per_entry_witness :
  TempyList.TempyList TempyList.PNone
    (TempyList.PDict
       [(Some "a", TempyList.PNone);
        (Some "b", TempyList.PList [Some "c"]);
        (Some "d", TempyList.PDict [(Some "e", TempyList.PNone);
                                    (Some "_typ", TempyList.PStr "Ol")])])
  = Return (TempyList.Elem TempyList.Ul
              [TempyList.li_item "a";
               TempyList.Elem TempyList.Li
                 [TempyList.Content (TempyList.PStr "b");
                  TempyList.Elem TempyList.Ul [TempyList.li_item "c"]];
               TempyList.Elem TempyList.Li
                 [TempyList.Content (TempyList.PStr "d");
                  TempyList.Elem TempyList.Ol [TempyList.li_item "e"]]]).
Proof.
  apply (proj2 (li_items_per_entry TempyList.PNone TempyList.Ul
                  [(Some "a", TempyList.PNone);
                   (Some "b", TempyList.PList [Some "c"]);
                   (Some "d", TempyList.PDict [(Some "e", TempyList.PNone);
                                               (Some "_typ", TempyList.PStr "Ol")])]
                  _ eq_refl ltac:(discriminate) eq_refl
                  ltac:(vm_compute; apply NoDup_singleton))).
  repeat constructor.
  - exists (TempyList.Elem TempyList.Ul [TempyList.li_item "c"]). split; reflexivity.
  - exists (TempyList.Elem TempyList.Ol [TempyList.li_item "e"]). split; reflexivity.
Defined.

Lemma li_text_value_fails_witness :
  exists ex,
    TempyList.TempyList TempyList.PNone
      (TempyList.PDict [(Some "a", TempyList.PStr "text")]) = Raise ex.
Proof.
  apply (li_text_value_fails TempyList.PNone TempyList.Ul
           [(Some "a", TempyList.PStr "text")] (Some "a") "text").
  - reflexivity.
  - discriminate.
  - reflexivity.
  - apply list_elem_of_here.
  - discriminate.
Defined.

Lemma dl_is_flat_witness :
  exists terms,
    TempyList.TempyList (TempyList.PStr "Dl")
      (TempyList.PDict [(Some "term1", TempyList.PStr "def1");
                        (Some "term2", TempyList.PList [Some "def2a"; Some "def2b"])])
    = Return (TempyList.Elem TempyList.Dl terms) /\
    forallb is_flat_term terms = true /\
    length (List.filter is_term terms) = 2.
Proof.
  apply (dl_is_flat (TempyList.PStr "Dl")
           [(Some "term1", TempyList.PStr "def1");
            (Some "term2", TempyList.PList [Some "def2a"; Some "def2b"])]);
    reflexivity.
Defined.

Lemma typ_entry_as_kind_argument_witness :
  TempyList.TempyList (TempyList.PTag TempyList.Ul)
    (TempyList.PDict [(Some "a", TempyList.PNone); (Some "_typ", TempyList.PStr "Ol")])
  = TempyList.TempyList (TempyList.PStr "Ol")
      (TempyList.PDict [(Some "a", TempyList.PNone)]).
Proof.
  apply (typ_entry_as_kind_argument (TempyList.PTag TempyList.Ul)
           [(Some "a", TempyList.PNone); (Some "_typ", TempyList.PStr "Ol")]
           (TempyList.PStr "Ol")).
  - exact (bool_decide_unpack (NoDup [Some "a"; Some "_typ"]) I).
  - reflexivity.
Defined.

Lemma list_from_no_container_witness :
  TempyList.TempyList (TempyList.PStr "Ol") (TempyList.PStr "text")
  = Raise WidgetDataError
  /\ TempyList.TempyList (TempyList.PStr "Ol") TempyList.PNone
     = Return (TempyList.Elem TempyList.Ol []).
Proof.
  destruct (list_from_no_container (TempyList.PStr "Ol") TempyList.Ol eq_refl)
    as (Htext & Hnone).
  split; [apply Htext | apply Hnone].
Defined.
